(** * Pricing and recalculation core of the inventory application

    A shallow embedding of [types/inventory.ts] (the pricing formulas),
    [hooks/useStore.ts] (the store operations) and the two form handlers
    [AddInventoryDialog.handleSubmit] and [SettingsPanel.handleChange].

    Numbers.  A JavaScript [number] is a binary64 floating-point value.  A
    finite one is a rational, so numbers are carried in [Q], and the
    arithmetic of the pricing formulas is the binary64 one: every product,
    sum, difference and quotient is the exact result rounded to the nearest
    double, ties to even, subnormals included ([round64]).  [Math.ceil] of a
    double is exact.  The special values (NaN, the infinities, the sign of
    zero), overflow beyond the largest double and division by zero are
    outside the model.  The statements about the value of the selling price
    carry the hypothesis [platformFeeRate < 1]: for a fee rate that is a
    double, [1 - platformFeeRate] is then at least 2^-53 and the divisor is
    not zero.  Profits and table totals are differences and sums of yen
    amounts, which are integers ([parseInt], [Math.ceil]) and therefore
    exact in binary64 below 2^53; they are computed exactly.

    Strings.  A JavaScript string is its sequence of UTF-16 code units.

    React state.  [setX(prev => f prev)] is modelled by the function [f]
    itself, with the values captured by the callback ([settings],
    [activeStoreId]) and the non-deterministic inputs (the generated id, the
    clock) passed as arguments. *)

From Stdlib Require Import Ascii String.
From Stdlib Require Import QArith Qround Qabs Qpower Qreduction.
From Stdlib Require Import ZArith List Bool Lia Lqa.
Import ListNotations.

Local Open Scope Q_scope.

(** ** JavaScript values *)

Definition number := Q.

Definition Math_ceil (x : number) : number := inject_Z (Qceiling x).

(** [a > b] on numbers. *)
Definition js_gt (a b : number) : bool := negb (Qle_bool a b).

(** *** binary64 arithmetic *)

Definition pow2 (e : Z) : Q := 2 ^ e.

(** The integer part of the base-2 logarithm of a positive rational. *)
Definition ilog2 (x : Q) : Z :=
  let k0 := (Z.log2 (Qnum x) - Z.log2 (Zpos (Qden x)))%Z in
  if Qle_bool (pow2 k0) x then k0 else (k0 - 1)%Z.

(** The nearest integer, a tie going to the even one. *)
Definition rne (m : Q) : Z :=
  let f := Qfloor m in
  match Qcompare (m - inject_Z f) (1 # 2) with
  | Lt => f
  | Gt => (f + 1)%Z
  | Eq => if Z.even f then f else (f + 1)%Z
  end.

(** The exponent of the last place of a double near [x]: 53 significant
    bits, and never below the subnormal exponent -1074. *)
Definition cexp (x : Q) : Z := Z.max (ilog2 (Qabs x) - 52) (-1074).

(** The double nearest to [x]. *)
Definition round64 (x : Q) : Q :=
  if Qeq_bool x 0 then 0
  else Qred (inject_Z (rne (x / pow2 (cexp x))) * pow2 (cexp x)).

(** The double a decimal literal or a parsed input denotes. *)
Definition double (q : Q) : number := round64 q.

(** [a * b], [a + b], [a - b] and [a / b] on numbers. *)
Definition js_mul (a b : number) : number := round64 (a * b).
Definition js_add (a b : number) : number := round64 (a + b).
Definition js_sub (a b : number) : number := round64 (a - b).
Definition js_div (a b : number) : number := round64 (a / b).

Definition js_string := list N.

Definition js_string_eqb (a b : js_string) : bool :=
  if list_eq_dec N.eq_dec a b then true else false.

(** WhiteSpace and LineTerminator code units, as removed by
    [String.prototype.trim]. *)
Definition isWhiteSpace (c : N) : bool :=
  ((c =? 9) || (c =? 10) || (c =? 11) || (c =? 12) || (c =? 13) ||
   (c =? 32) || (c =? 160) || (c =? 5760) ||
   ((8192 <=? c) && (c <=? 8202)) ||
   (c =? 8232) || (c =? 8233) || (c =? 8239) || (c =? 8287) ||
   (c =? 12288) || (c =? 65279))%N.

Fixpoint trimStart (s : js_string) : js_string :=
  match s with
  | [] => []
  | c :: s' => if isWhiteSpace c then trimStart s' else s
  end.

Definition trimEnd (s : js_string) : js_string := rev (trimStart (rev s)).

Definition trim (s : js_string) : js_string := trimEnd (trimStart s).

(** Truthiness of a string: every string but the empty one. *)
Definition truthy (s : js_string) : bool :=
  match s with [] => false | _ :: _ => true end.

(** [a || b] on strings. *)
Definition js_or (a b : js_string) : js_string := if truthy a then a else b.

(** The code units of an ASCII literal. *)
Fixpoint lit (s : String.string) : js_string :=
  match s with
  | String.EmptyString => []
  | String.String c s' => Ascii.N_of_ascii c :: lit s'
  end.

Arguments lit s%_string.

(** ** types/inventory.ts *)

Module Settings.
Record t := mk {
  exchangeRate : number;
  internationalShipping : number;
  domesticShipping : number;
  targetProfit : number;
  platformFeeRate : number
}.
End Settings.

Definition defaultSettings : Settings.t :=
  {| Settings.exchangeRate := 23;
     Settings.internationalShipping := 1000;
     Settings.domesticShipping := 1000;
     Settings.targetProfit := 6000;
     Settings.platformFeeRate := double (22 # 100) |}.

Definition calculateSellingPrice (costCNY : number) (settings : Settings.t) : number :=
  let baseCost := js_mul costCNY (Settings.exchangeRate settings) in
  let totalCost :=
    js_add (js_add (js_add baseCost (Settings.internationalShipping settings))
                   (Settings.domesticShipping settings))
           (Settings.targetProfit settings) in
  let sellingPrice := js_div totalCost (js_sub 1 (Settings.platformFeeRate settings)) in
  Math_ceil sellingPrice.

(** The optional third argument is [None] when the caller omits it. *)
Definition calculateConvertedWithShipping
    (costCNY exchangeRate : number) (shipping : option number) : number :=
  let shipping := match shipping with Some v => v | None => 1000 end in
  Math_ceil (js_add (js_mul costCNY exchangeRate) shipping).

Definition calculateProfit (actualPayment convertedWithShipping : number) : number :=
  actualPayment - convertedWithShipping.

Module InventoryItem.
Record t := mk {
  id : js_string;
  photo : js_string;
  productName : js_string;
  color : js_string;
  size : js_string;
  quantity : number;
  costPriceCNY : number;
  sellingPriceJPY : number
}.
End InventoryItem.

(** [completedAt] is the optional field the store operations read and
    write next to [createdAt]. *)
Module OrderItem.
Record t := mk {
  id : js_string;
  photo : js_string;
  productName : js_string;
  color : js_string;
  size : js_string;
  costPriceCNY : number;
  convertedWithShipping : number;
  actualPayment : number;
  profit : number;
  createdAt : js_string;
  completedAt : option js_string
}.
End OrderItem.

Module Store.
Record t := mk {
  id : js_string;
  name : js_string;
  inventory : list InventoryItem.t;
  orders : list OrderItem.t
}.
End Store.

(** ** hooks/useStore.ts *)

(** [Partial<Settings>]: [None] is an absent key. *)
Module PartialSettings.
Record t := mk {
  exchangeRate : option number;
  internationalShipping : option number;
  domesticShipping : option number;
  targetProfit : option number;
  platformFeeRate : option number
}.
End PartialSettings.

(** [Omit<InventoryItem, 'id' | 'sellingPriceJPY'>] *)
Module InventoryDraft.
Record t := mk {
  photo : js_string;
  productName : js_string;
  color : js_string;
  size : js_string;
  quantity : number;
  costPriceCNY : number
}.
End InventoryDraft.

(** [Omit<OrderItem, 'id' | 'convertedWithShipping' | 'profit'>] *)
Module OrderDraft.
Record t := mk {
  photo : js_string;
  productName : js_string;
  color : js_string;
  size : js_string;
  costPriceCNY : number;
  actualPayment : number;
  createdAt : js_string;
  completedAt : option js_string
}.
End OrderDraft.

(** [Partial<OrderItem>]: [None] is an absent key. *)
Module PartialOrderItem.
Record t := mk {
  id : option js_string;
  photo : option js_string;
  productName : option js_string;
  color : option js_string;
  size : option js_string;
  costPriceCNY : option number;
  convertedWithShipping : option number;
  actualPayment : option number;
  profit : option number;
  createdAt : option js_string;
  completedAt : option js_string
}.
End PartialOrderItem.

(** One key of an object spread [{ ...item, ...updates }]. *)
Definition spread {A : Type} (old : A) (upd : option A) : A :=
  match upd with Some v => v | None => old end.

(** [s.id === activeStoreId], where [activeStoreId : string | null]. *)
Definition isActive (activeStoreId : option js_string) (s : Store.t) : bool :=
  match activeStoreId with
  | Some a => js_string_eqb (Store.id s) a
  | None => false
  end.

Definition newInventoryItem (settings : Settings.t) (newId : js_string)
    (item : InventoryDraft.t) : InventoryItem.t :=
  {| InventoryItem.id := newId;
     InventoryItem.photo := InventoryDraft.photo item;
     InventoryItem.productName := InventoryDraft.productName item;
     InventoryItem.color := InventoryDraft.color item;
     InventoryItem.size := InventoryDraft.size item;
     InventoryItem.quantity := InventoryDraft.quantity item;
     InventoryItem.costPriceCNY := InventoryDraft.costPriceCNY item;
     InventoryItem.sellingPriceJPY :=
       calculateSellingPrice (InventoryDraft.costPriceCNY item) settings |}.

(** [newId] is the value [generateId()] returns in this call. *)
Definition addInventoryItem (settings : Settings.t) (activeStoreId : option js_string)
    (newId : js_string) (item : InventoryDraft.t) (prev : list Store.t) : list Store.t :=
  let newItem := newInventoryItem settings newId item in
  map (fun s =>
         if isActive activeStoreId s
         then {| Store.id := Store.id s;
                 Store.name := Store.name s;
                 Store.inventory := Store.inventory s ++ [newItem];
                 Store.orders := Store.orders s |}
         else s) prev.

(** [now] is [new Date().toISOString()]; [createdAt] is the optional second
    argument. *)
Definition newOrderItem (settings : Settings.t) (newId now : js_string)
    (item : OrderDraft.t) (createdAt : option js_string) : OrderItem.t :=
  let convertedWithShipping :=
    calculateConvertedWithShipping (OrderDraft.costPriceCNY item)
                                   (Settings.exchangeRate settings) None in
  let profit := calculateProfit (OrderDraft.actualPayment item) convertedWithShipping in
  let orderDate :=
    js_or (js_or (match createdAt with Some c => c | None => [] end)
                 (OrderDraft.createdAt item)) now in
  {| OrderItem.id := newId;
     OrderItem.photo := OrderDraft.photo item;
     OrderItem.productName := OrderDraft.productName item;
     OrderItem.color := OrderDraft.color item;
     OrderItem.size := OrderDraft.size item;
     OrderItem.costPriceCNY := OrderDraft.costPriceCNY item;
     OrderItem.convertedWithShipping := convertedWithShipping;
     OrderItem.actualPayment := OrderDraft.actualPayment item;
     OrderItem.profit := profit;
     OrderItem.createdAt := orderDate;
     OrderItem.completedAt :=
       Some (js_or (match OrderDraft.completedAt item with Some c => c | None => [] end)
                   orderDate) |}.

Definition addOrderItem (settings : Settings.t) (activeStoreId : option js_string)
    (newId now : js_string) (item : OrderDraft.t) (createdAt : option js_string)
    (prev : list Store.t) : list Store.t :=
  let newItem := newOrderItem settings newId now item createdAt in
  map (fun s =>
         if isActive activeStoreId s
         then {| Store.id := Store.id s;
                 Store.name := Store.name s;
                 Store.inventory := Store.inventory s;
                 Store.orders := Store.orders s ++ [newItem] |}
         else s) prev.

(** The body of the inner [map] of [updateOrderItem], for the item whose id
    matches: the spread, then the two conditional recomputations. *)
Definition updatedOrder (settings : Settings.t) (updates : PartialOrderItem.t)
    (item : OrderItem.t) : OrderItem.t :=
  let updated :=
    {| OrderItem.id := spread (OrderItem.id item) (PartialOrderItem.id updates);
       OrderItem.photo := spread (OrderItem.photo item) (PartialOrderItem.photo updates);
       OrderItem.productName :=
         spread (OrderItem.productName item) (PartialOrderItem.productName updates);
       OrderItem.color := spread (OrderItem.color item) (PartialOrderItem.color updates);
       OrderItem.size := spread (OrderItem.size item) (PartialOrderItem.size updates);
       OrderItem.costPriceCNY :=
         spread (OrderItem.costPriceCNY item) (PartialOrderItem.costPriceCNY updates);
       OrderItem.convertedWithShipping :=
         spread (OrderItem.convertedWithShipping item)
                (PartialOrderItem.convertedWithShipping updates);
       OrderItem.actualPayment :=
         spread (OrderItem.actualPayment item) (PartialOrderItem.actualPayment updates);
       OrderItem.profit := spread (OrderItem.profit item) (PartialOrderItem.profit updates);
       OrderItem.createdAt :=
         spread (OrderItem.createdAt item) (PartialOrderItem.createdAt updates);
       OrderItem.completedAt :=
         match PartialOrderItem.completedAt updates with
         | Some c => Some c
         | None => OrderItem.completedAt item
         end |} in
  let converted :=
    match PartialOrderItem.costPriceCNY updates with
    | Some c => calculateConvertedWithShipping c (Settings.exchangeRate settings) None
    | None => OrderItem.convertedWithShipping updated
    end in
  let profit :=
    match PartialOrderItem.actualPayment updates, PartialOrderItem.costPriceCNY updates with
    | None, None => OrderItem.profit updated
    | _, _ => calculateProfit (OrderItem.actualPayment updated) converted
    end in
  {| OrderItem.id := OrderItem.id updated;
     OrderItem.photo := OrderItem.photo updated;
     OrderItem.productName := OrderItem.productName updated;
     OrderItem.color := OrderItem.color updated;
     OrderItem.size := OrderItem.size updated;
     OrderItem.costPriceCNY := OrderItem.costPriceCNY updated;
     OrderItem.convertedWithShipping := converted;
     OrderItem.actualPayment := OrderItem.actualPayment updated;
     OrderItem.profit := profit;
     OrderItem.createdAt := OrderItem.createdAt updated;
     OrderItem.completedAt := OrderItem.completedAt updated |}.

Definition updateOrderItem (settings : Settings.t) (activeStoreId : option js_string)
    (itemId : js_string) (updates : PartialOrderItem.t)
    (prev : list Store.t) : list Store.t :=
  map (fun s =>
         if negb (isActive activeStoreId s) then s
         else {| Store.id := Store.id s;
                 Store.name := Store.name s;
                 Store.inventory := Store.inventory s;
                 Store.orders :=
                   map (fun item =>
                          if negb (js_string_eqb (OrderItem.id item) itemId) then item
                          else updatedOrder settings updates item)
                       (Store.orders s) |}) prev.

Definition updateSettings (newSettings : PartialSettings.t) (prev : Settings.t)
    : Settings.t :=
  {| Settings.exchangeRate :=
       spread (Settings.exchangeRate prev) (PartialSettings.exchangeRate newSettings);
     Settings.internationalShipping :=
       spread (Settings.internationalShipping prev)
              (PartialSettings.internationalShipping newSettings);
     Settings.domesticShipping :=
       spread (Settings.domesticShipping prev)
              (PartialSettings.domesticShipping newSettings);
     Settings.targetProfit :=
       spread (Settings.targetProfit prev) (PartialSettings.targetProfit newSettings);
     Settings.platformFeeRate :=
       spread (Settings.platformFeeRate prev)
              (PartialSettings.platformFeeRate newSettings) |}.

Definition recalculateInventoryItem (settings : Settings.t) (item : InventoryItem.t)
    : InventoryItem.t :=
  {| InventoryItem.id := InventoryItem.id item;
     InventoryItem.photo := InventoryItem.photo item;
     InventoryItem.productName := InventoryItem.productName item;
     InventoryItem.color := InventoryItem.color item;
     InventoryItem.size := InventoryItem.size item;
     InventoryItem.quantity := InventoryItem.quantity item;
     InventoryItem.costPriceCNY := InventoryItem.costPriceCNY item;
     InventoryItem.sellingPriceJPY :=
       calculateSellingPrice (InventoryItem.costPriceCNY item) settings |}.

Definition recalculateOrderItem (settings : Settings.t) (order : OrderItem.t)
    : OrderItem.t :=
  let convertedWithShipping :=
    calculateConvertedWithShipping (OrderItem.costPriceCNY order)
                                   (Settings.exchangeRate settings) None in
  {| OrderItem.id := OrderItem.id order;
     OrderItem.photo := OrderItem.photo order;
     OrderItem.productName := OrderItem.productName order;
     OrderItem.color := OrderItem.color order;
     OrderItem.size := OrderItem.size order;
     OrderItem.costPriceCNY := OrderItem.costPriceCNY order;
     OrderItem.convertedWithShipping := convertedWithShipping;
     OrderItem.actualPayment := OrderItem.actualPayment order;
     OrderItem.profit := calculateProfit (OrderItem.actualPayment order) convertedWithShipping;
     OrderItem.createdAt := OrderItem.createdAt order;
     OrderItem.completedAt := OrderItem.completedAt order |}.

Definition recalculateAllPrices (settings : Settings.t) (prev : list Store.t)
    : list Store.t :=
  map (fun store =>
         {| Store.id := Store.id store;
            Store.name := Store.name store;
            Store.inventory := map (recalculateInventoryItem settings) (Store.inventory store);
            Store.orders := map (recalculateOrderItem settings) (Store.orders store) |})
      prev.

(** ** components/AddInventoryDialog.tsx *)

Module AddInventoryDialog.

Definition emptyItem : InventoryDraft.t :=
  {| InventoryDraft.photo := [];
     InventoryDraft.productName := [];
     InventoryDraft.color := [];
     InventoryDraft.size := [];
     InventoryDraft.quantity := 1;
     InventoryDraft.costPriceCNY := 0 |}.

(** The component state [newItem] and the parent's [open] flag. *)
Record state := mkState {
  newItem : InventoryDraft.t;
  open : bool
}.

(** [onAddItem] is the parent's callback; [W] is whatever it acts on. *)
Definition handleSubmit {W : Type} (onAddItem : InventoryDraft.t -> W -> W)
    (d : state) (w : W) : W * state :=
  if truthy (trim (InventoryDraft.productName (newItem d)))
     && js_gt (InventoryDraft.costPriceCNY (newItem d)) 0
  then (onAddItem (newItem d) w, {| newItem := emptyItem; open := false |})
  else (w, d).

End AddInventoryDialog.

(** The dialog as the page mounts it: [onAddItem] is the hook's
    [addInventoryItem]. *)
Definition submitInventoryItem (settings : Settings.t) (activeStoreId : option js_string)
    (newId : js_string) (d : AddInventoryDialog.state) (stores : list Store.t)
    : list Store.t * AddInventoryDialog.state :=
  AddInventoryDialog.handleSubmit (addInventoryItem settings activeStoreId newId) d stores.

(** ** components/SettingsPanel.tsx *)

Module SettingsPanel.

(** [keyof Settings] *)
Inductive key :=
| exchangeRate | internationalShipping | domesticShipping
| targetProfit | platformFeeRate.

(** The object literal [{ [key]: value }]. *)
Definition single (k : key) (value : number) : PartialSettings.t :=
  match k with
  | exchangeRate => PartialSettings.mk (Some value) None None None None
  | internationalShipping => PartialSettings.mk None (Some value) None None None
  | domesticShipping => PartialSettings.mk None None (Some value) None None
  | targetProfit => PartialSettings.mk None None None (Some value) None
  | platformFeeRate => PartialSettings.mk None None None None (Some value)
  end.

Definition handleChange {W : Type} (onUpdateSettings : PartialSettings.t -> W -> W)
    (k : key) (value : number) (w : W) : W :=
  onUpdateSettings (single k value) w.

End SettingsPanel.

(** ** Vocabulary of the specification *)

(** [n] is the ceiling of [x]: the least integer that is not below [x]. *)
Definition is_ceiling (x : Q) (n : Z) : Prop :=
  x <= inject_Z n /\ forall m : Z, x <= inject_Z m -> (n <= m)%Z.



(** The same sum and the same quotient as binary64 evaluates them, one
    rounding after each operation. *)
Definition js_total (costCNY : Q) (s : Settings.t) : Q :=
  js_add (js_add (js_add (js_mul costCNY (Settings.exchangeRate s))
                         (Settings.internationalShipping s))
                 (Settings.domesticShipping s))
         (Settings.targetProfit s).

Definition js_price (costCNY : Q) (s : Settings.t) : Q :=
  js_div (js_total costCNY s) (js_sub 1 (Settings.platformFeeRate s)).

(** [x] is a double: rounding leaves it as it is. *)
Definition is_double (x : Q) : Prop := round64 x == x.


Definition valid_fee (s : Settings.t) : Prop :=
  0 <= Settings.platformFeeRate s /\ Settings.platformFeeRate s < 1.

Definition nonneg_addons (s : Settings.t) : Prop :=
  0 <= Settings.internationalShipping s /\
  0 <= Settings.domesticShipping s /\
  0 <= Settings.targetProfit s.

(** The converted cost of the order side: the ceiling of costCNY *
    exchangeRate + 1000 as binary64 computes it. *)
Definition flat_converted (costCNY exchangeRate : Q) : Q :=
  Math_ceil (js_add (js_mul costCNY exchangeRate) 1000).

(** [s'] is [s] with the order [o] appended if [s] is active. *)
Definition order_appended (activeStoreId : option js_string) (o : OrderItem.t)
    (s s' : Store.t) : Prop :=
  Store.id s' = Store.id s /\
  Store.name s' = Store.name s /\
  Store.inventory s' = Store.inventory s /\
  Store.orders s' =
    if isActive activeStoreId s then Store.orders s ++ [o] else Store.orders s.

(** [s'] is [s] where the orders with id [itemId], if [s] is active, have
    got the cost [c] and the converted cost that goes with it. *)
Definition order_recosted (settings : Settings.t) (activeStoreId : option js_string)
    (itemId : js_string) (c : Q) (s s' : Store.t) : Prop :=
  Store.id s' = Store.id s /\
  Store.name s' = Store.name s /\
  Store.inventory s' = Store.inventory s /\
  Forall2 (fun o o' =>
             if isActive activeStoreId s && js_string_eqb (OrderItem.id o) itemId
             then OrderItem.costPriceCNY o' = c /\
                  OrderItem.convertedWithShipping o'
                  = flat_converted c (Settings.exchangeRate settings)
             else o' = o)
          (Store.orders s) (Store.orders s').

(** Every order of [s'] carries the converted cost of its own cost. *)
Definition orders_swept (settings : Settings.t) (s s' : Store.t) : Prop :=
  Forall2 (fun o o' =>
             OrderItem.costPriceCNY o' = OrderItem.costPriceCNY o /\
             OrderItem.convertedWithShipping o'
             = flat_converted (OrderItem.costPriceCNY o)
                              (Settings.exchangeRate settings))
          (Store.orders s) (Store.orders s').

(** Two settings that agree on everything but, possibly, the exchange rate. *)
Definition same_but_rate (s1 s2 : Settings.t) : Prop :=
  Settings.internationalShipping s1 == Settings.internationalShipping s2 /\
  Settings.domesticShipping s1 == Settings.domesticShipping s2 /\
  Settings.targetProfit s1 == Settings.targetProfit s2 /\
  Settings.platformFeeRate s1 == Settings.platformFeeRate s2.

(** What the settings-update boundary is asked to guarantee. *)
Definition valid_settings (s : Settings.t) : Prop :=
  valid_fee s /\ nonneg_addons s.

Definition option_holds {A : Type} (P : A -> Prop) (o : option A) : Prop :=
  match o with Some v => P v | None => True end.

(** Every value an update supplies is itself in range. *)
Definition valid_update (u : PartialSettings.t) : Prop :=
  option_holds (fun v => 0 <= v) (PartialSettings.internationalShipping u) /\
  option_holds (fun v => 0 <= v) (PartialSettings.domesticShipping u) /\
  option_holds (fun v => 0 <= v) (PartialSettings.targetProfit u) /\
  option_holds (fun v => 0 <= v /\ v < 1) (PartialSettings.platformFeeRate u).

(** [item'] is [item] with its selling price re-derived under [settings]
    and nothing else touched. *)
Definition inventory_recalculated (settings : Settings.t)
    (item item' : InventoryItem.t) : Prop :=
  InventoryItem.id item' = InventoryItem.id item /\
  InventoryItem.photo item' = InventoryItem.photo item /\
  InventoryItem.productName item' = InventoryItem.productName item /\
  InventoryItem.color item' = InventoryItem.color item /\
  InventoryItem.size item' = InventoryItem.size item /\
  InventoryItem.quantity item' = InventoryItem.quantity item /\
  InventoryItem.costPriceCNY item' = InventoryItem.costPriceCNY item /\
  InventoryItem.sellingPriceJPY item' =
    calculateSellingPrice (InventoryItem.costPriceCNY item) settings.

(** [order'] is [order] with both derived fields re-derived under
    [settings] and nothing else touched. *)
Definition order_recalculated (settings : Settings.t)
    (order order' : OrderItem.t) : Prop :=
  OrderItem.id order' = OrderItem.id order /\
  OrderItem.photo order' = OrderItem.photo order /\
  OrderItem.productName order' = OrderItem.productName order /\
  OrderItem.color order' = OrderItem.color order /\
  OrderItem.size order' = OrderItem.size order /\
  OrderItem.costPriceCNY order' = OrderItem.costPriceCNY order /\
  OrderItem.actualPayment order' = OrderItem.actualPayment order /\
  OrderItem.createdAt order' = OrderItem.createdAt order /\
  OrderItem.completedAt order' = OrderItem.completedAt order /\
  OrderItem.convertedWithShipping order' =
    calculateConvertedWithShipping (OrderItem.costPriceCNY order)
                                   (Settings.exchangeRate settings) None /\
  OrderItem.profit order' =
    OrderItem.actualPayment order - OrderItem.convertedWithShipping order'.

(** Same store, same items in the same positions, each re-derived. *)
Definition store_recalculated (settings : Settings.t) (s s' : Store.t) : Prop :=
  Store.id s' = Store.id s /\
  Store.name s' = Store.name s /\
  Forall2 (inventory_recalculated settings) (Store.inventory s) (Store.inventory s') /\
  Forall2 (order_recalculated settings) (Store.orders s) (Store.orders s').

(** The consistency invariant of an order's derived fields. *)
Definition order_invariant (o : OrderItem.t) : Prop :=
  OrderItem.profit o == OrderItem.actualPayment o - OrderItem.convertedWithShipping o.

Definition stores_invariant (stores : list Store.t) : Prop :=
  Forall (fun s => Forall order_invariant (Store.orders s)) stores.

(** An update that touches attribute fields only: it carries no [id],
    no [convertedWithShipping] and no [profit]. *)
Definition attribute_only (u : PartialOrderItem.t) : Prop :=
  PartialOrderItem.id u = None /\
  PartialOrderItem.convertedWithShipping u = None /\
  PartialOrderItem.profit u = None.

Definition inventory_count (stores : list Store.t) : nat :=
  list_sum (map (fun s => length (Store.inventory s)) stores).

Definition active_count (activeStoreId : option js_string) (stores : list Store.t) : nat :=
  length (filter (isActive activeStoreId) stores).

(** What a successful create does to one store. *)
Definition item_added (activeStoreId : option js_string) (newItem : InventoryItem.t)
    (s s' : Store.t) : Prop :=
  Store.id s' = Store.id s /\
  Store.name s' = Store.name s /\
  Store.orders s' = Store.orders s /\
  Store.inventory s' =
    if isActive activeStoreId s then Store.inventory s ++ [newItem]
    else Store.inventory s.

(** ** Sample data *)

(** The order of the specification's second scenario: 50 CNY at rate 23
    with the flat 1000 JPY shipping, paid 3000 JPY. *)
Definition sampleOrder : OrderItem.t :=
  {| OrderItem.id := lit "o1";
     OrderItem.photo := [];
     OrderItem.productName := lit "Scarf";
     OrderItem.color := lit "red";
     OrderItem.size := lit "M";
     OrderItem.costPriceCNY := 50;
     OrderItem.convertedWithShipping := 2150;
     OrderItem.actualPayment := 3000;
     OrderItem.profit := 850;
     OrderItem.createdAt := lit "2026-01-15T00:00:00.000Z";
     OrderItem.completedAt := None |}.

Definition sampleInventoryItem : InventoryItem.t :=
  {| InventoryItem.id := lit "i1";
     InventoryItem.photo := [];
     InventoryItem.productName := lit "Coat";
     InventoryItem.color := lit "blue";
     InventoryItem.size := lit "L";
     InventoryItem.quantity := 2;
     InventoryItem.costPriceCNY := 100;
     InventoryItem.sellingPriceJPY := 13206 |}.

Definition sampleStore : Store.t :=
  {| Store.id := lit "s1";
     Store.name := lit "Shop";
     Store.inventory := [sampleInventoryItem];
     Store.orders := [sampleOrder] |}.

Definition sampleOrderDraft : OrderDraft.t :=
  {| OrderDraft.photo := [];
     OrderDraft.productName := lit "Hat";
     OrderDraft.color := [];
     OrderDraft.size := [];
     OrderDraft.costPriceCNY := 10;
     OrderDraft.actualPayment := 2000;
     OrderDraft.createdAt := [];
     OrderDraft.completedAt := None |}.

(** A draft the dialog can hold: typing -5 into the quantity field stores
    [parseInt("-5") || 1 = -5]. *)
Definition negativeQuantityDraft : InventoryDraft.t :=
  {| InventoryDraft.photo := [];
     InventoryDraft.productName := lit "Shirt";
     InventoryDraft.color := [];
     InventoryDraft.size := [];
     InventoryDraft.quantity := - (5);
     InventoryDraft.costPriceCNY := 50 |}.


(** The default settings at exchange rate 25. *)
Definition rate25Settings : Settings.t :=
  {| Settings.exchangeRate := 25;
     Settings.internationalShipping := 1000;
     Settings.domesticShipping := 1000;
     Settings.targetProfit := 6000;
     Settings.platformFeeRate := double (22 # 100) |}.


(** Rate 10, no shipping, no target profit, no fee. *)
Definition bareSettings : Settings.t :=
  {| Settings.exchangeRate := 10;
     Settings.internationalShipping := 0;
     Settings.domesticShipping := 0;
     Settings.targetProfit := 0;
     Settings.platformFeeRate := 0 |}.

(** ** hooks/useStore.ts: the remaining operations *)

(** [stores.find(s => s.id === activeStoreId) || null] *)
Definition activeStore (stores : list Store.t) (activeStoreId : option js_string)
    : option Store.t :=
  find (isActive activeStoreId) stores.

(** The two pieces of state [addStore] and [deleteStore] write. *)
Definition hookState : Type := (list Store.t * option js_string)%type.

Definition addStore (newId name : js_string) (st : hookState) : hookState :=
  let newStore :=
    {| Store.id := newId; Store.name := name;
       Store.inventory := []; Store.orders := [] |} in
  (fst st ++ [newStore], Some (Store.id newStore)).

Definition updateStoreName (storeId name : js_string) (prev : list Store.t)
    : list Store.t :=
  map (fun s =>
         if js_string_eqb (Store.id s) storeId
         then {| Store.id := Store.id s;
                 Store.name := name;
                 Store.inventory := Store.inventory s;
                 Store.orders := Store.orders s |}
         else s) prev.

(** [activeStoreId === storeId], with [activeStoreId : string | null]. *)
Definition isActiveId (activeStoreId : option js_string) (storeId : js_string) : bool :=
  match activeStoreId with
  | Some a => js_string_eqb a storeId
  | None => false
  end.

Definition deleteStore (storeId : js_string) (st : hookState) : hookState :=
  let newStores :=
    filter (fun s => negb (js_string_eqb (Store.id s) storeId)) (fst st) in
  match newStores with
  | s0 :: _ =>
      if isActiveId (snd st) storeId
      then (newStores, Some (Store.id s0))
      else (newStores, snd st)
  | [] => (newStores, snd st)
  end.

(** [Partial<InventoryItem>]: [None] is an absent key. *)
Module PartialInventoryItem.
Record t := mk {
  id : option js_string;
  photo : option js_string;
  productName : option js_string;
  color : option js_string;
  size : option js_string;
  quantity : option number;
  costPriceCNY : option number;
  sellingPriceJPY : option number
}.
Definition empty : t := mk None None None None None None None None.
End PartialInventoryItem.

Definition emptyOrderUpdate : PartialOrderItem.t :=
  PartialOrderItem.mk None None None None None None None None None None None.

(** The body of the inner [map] of [updateInventoryItem], for the item whose
    id matches. *)
Definition updatedInventoryItem (settings : Settings.t)
    (updates : PartialInventoryItem.t) (item : InventoryItem.t) : InventoryItem.t :=
  {| InventoryItem.id := spread (InventoryItem.id item) (PartialInventoryItem.id updates);
     InventoryItem.photo :=
       spread (InventoryItem.photo item) (PartialInventoryItem.photo updates);
     InventoryItem.productName :=
       spread (InventoryItem.productName item) (PartialInventoryItem.productName updates);
     InventoryItem.color :=
       spread (InventoryItem.color item) (PartialInventoryItem.color updates);
     InventoryItem.size := spread (InventoryItem.size item) (PartialInventoryItem.size updates);
     InventoryItem.quantity :=
       spread (InventoryItem.quantity item) (PartialInventoryItem.quantity updates);
     InventoryItem.costPriceCNY :=
       spread (InventoryItem.costPriceCNY item) (PartialInventoryItem.costPriceCNY updates);
     InventoryItem.sellingPriceJPY :=
       match PartialInventoryItem.costPriceCNY updates with
       | Some c => calculateSellingPrice c settings
       | None =>
           spread (InventoryItem.sellingPriceJPY item)
                  (PartialInventoryItem.sellingPriceJPY updates)
       end |}.

Definition updateInventoryItem (settings : Settings.t) (activeStoreId : option js_string)
    (itemId : js_string) (updates : PartialInventoryItem.t)
    (prev : list Store.t) : list Store.t :=
  map (fun s =>
         if negb (isActive activeStoreId s) then s
         else {| Store.id := Store.id s;
                 Store.name := Store.name s;
                 Store.inventory :=
                   map (fun item =>
                          if negb (js_string_eqb (InventoryItem.id item) itemId) then item
                          else updatedInventoryItem settings updates item)
                       (Store.inventory s);
                 Store.orders := Store.orders s |}) prev.

Definition deleteInventoryItem (activeStoreId : option js_string) (itemId : js_string)
    (prev : list Store.t) : list Store.t :=
  map (fun s =>
         if isActive activeStoreId s
         then {| Store.id := Store.id s;
                 Store.name := Store.name s;
                 Store.inventory :=
                   filter (fun item => negb (js_string_eqb (InventoryItem.id item) itemId))
                          (Store.inventory s);
                 Store.orders := Store.orders s |}
         else s) prev.

Definition deleteOrderItem (activeStoreId : option js_string) (itemId : js_string)
    (prev : list Store.t) : list Store.t :=
  map (fun s =>
         if isActive activeStoreId s
         then {| Store.id := Store.id s;
                 Store.name := Store.name s;
                 Store.inventory := Store.inventory s;
                 Store.orders :=
                   filter (fun item => negb (js_string_eqb (OrderItem.id item) itemId))
                          (Store.orders s) |}
         else s) prev.

(** ** components/AddInventoryDialog.tsx: the preview and the cancel button *)

Definition calculatedSellingPrice (settings : Settings.t) (newItem : InventoryDraft.t)
    : number :=
  if js_gt (InventoryDraft.costPriceCNY newItem) 0
  then calculateSellingPrice (InventoryDraft.costPriceCNY newItem) settings
  else 0.

Definition inventoryDialogClose (d : AddInventoryDialog.state) : AddInventoryDialog.state :=
  {| AddInventoryDialog.newItem := AddInventoryDialog.emptyItem;
     AddInventoryDialog.open := false |}.

(** ** components/AddOrderDialog.tsx *)

Module AddOrderDialog.

(** The form state: here [completedAt] and [createdAt] are plain strings,
    empty until a date is picked. *)
Record draft := mkDraft {
  photo : js_string;
  productName : js_string;
  color : js_string;
  size : js_string;
  costPriceCNY : number;
  actualPayment : number;
  completedAt : js_string;
  createdAt : js_string
}.

Definition emptyItem : draft :=
  {| photo := []; productName := []; color := []; size := [];
     costPriceCNY := 0; actualPayment := 0; completedAt := []; createdAt := [] |}.

Record state := mkState {
  newItem : draft;
  open : bool
}.

(** [midMonth] is [new Date(selectedYear, selectedMonth - 1, 15).toISOString()]. *)
Definition orderDate (midMonth : js_string) (d : draft) : js_string :=
  if truthy (createdAt d) then createdAt d else midMonth.

(** The object literal handed to [onAddItem]. *)
Definition submitted (midMonth : js_string) (d : draft) : OrderDraft.t :=
  {| OrderDraft.photo := photo d;
     OrderDraft.productName := productName d;
     OrderDraft.color := color d;
     OrderDraft.size := size d;
     OrderDraft.costPriceCNY := costPriceCNY d;
     OrderDraft.actualPayment := actualPayment d;
     OrderDraft.createdAt := orderDate midMonth d;
     OrderDraft.completedAt := Some (js_or (completedAt d) (orderDate midMonth d)) |}.

Definition handleSubmit {W : Type}
    (onAddItem : OrderDraft.t -> option js_string -> W -> W)
    (midMonth : js_string) (st : state) (w : W) : W * state :=
  if truthy (trim (productName (newItem st))) && js_gt (costPriceCNY (newItem st)) 0
  then (onAddItem (submitted midMonth (newItem st))
                  (Some (orderDate midMonth (newItem st))) w,
        {| newItem := emptyItem; open := false |})
  else (w, st).

Definition calculatedCost (settings : Settings.t) (d : draft) : number :=
  if js_gt (costPriceCNY d) 0
  then Math_ceil (js_add (js_mul (costPriceCNY d) (Settings.exchangeRate settings)) 1000)
  else 0.

Definition calculatedProfit (settings : Settings.t) (d : draft) : number :=
  if js_gt (actualPayment d) 0 && js_gt (costPriceCNY d) 0
  then actualPayment d - calculatedCost settings d
  else 0.

End AddOrderDialog.

(** The order dialog as the order table mounts it: [onAddItem] is the hook's
    [addOrderItem]. *)
Definition submitOrderItem (settings : Settings.t) (activeStoreId : option js_string)
    (newId now midMonth : js_string) (st : AddOrderDialog.state) (stores : list Store.t)
    : list Store.t * AddOrderDialog.state :=
  AddOrderDialog.handleSubmit
    (fun item createdAt => addOrderItem settings activeStoreId newId now item createdAt)
    midMonth st stores.

(** ** components/OrderTable.tsx *)


(** [items.reduce((sum, i) => sum + f i, 0)] *)
Definition sumOf {A : Type} (f : A -> number) (items : list A) : number :=
  fold_left (fun sum i => sum + f i) items 0.

Definition totalCost (items : list OrderItem.t) : number :=
  sumOf OrderItem.convertedWithShipping items.

(** The month selector: the pair (selectedYear, selectedMonth). *)
Definition handlePrevMonth (ym : Z * Z) : Z * Z :=
  if (snd ym =? 1)%Z then (fst ym - 1, 12)%Z else (fst ym, snd ym - 1)%Z.

Definition handleNextMonth (ym : Z * Z) : Z * Z :=
  if (snd ym =? 12)%Z then (fst ym + 1, 1)%Z else (fst ym, snd ym + 1)%Z.

(** ** lib/exportUtils.ts *)

Definition includes (c : N) (s : js_string) : bool := existsb (N.eqb c) s.

(** The global replace of [exportToCSV]: every quotation mark (code unit
    34) is doubled. *)
Fixpoint doubleQuotes (s : js_string) : js_string :=
  match s with
  | [] => []
  | c :: s' => if (c =? 34)%N then 34%N :: 34%N :: doubleQuotes s'
               else c :: doubleQuotes s'
  end.

(** One cell of [exportToCSV], from the string value on: quoted when it
    holds a comma (44), a quotation mark (34) or a line feed (10). *)
Definition csvField (stringValue : js_string) : js_string :=
  if includes 44 stringValue || includes 34 stringValue || includes 10 stringValue
  then 34%N :: doubleQuotes stringValue ++ [34%N]
  else stringValue.

(** ** Vocabulary of the further properties *)

(** Every stored selling price is the formula on the item's own cost. *)
Definition item_priced (settings : Settings.t) (item : InventoryItem.t) : Prop :=
  InventoryItem.sellingPriceJPY item
  = calculateSellingPrice (InventoryItem.costPriceCNY item) settings.

Definition inventory_priced (settings : Settings.t) (stores : list Store.t) : Prop :=
  Forall (fun s => Forall (item_priced settings) (Store.inventory s)) stores.

(** No inventory item of an active store carries [itemId]. *)
Definition fresh_inventory_id (activeStoreId : option js_string) (itemId : js_string)
    (stores : list Store.t) : Prop :=
  Forall (fun s => isActive activeStoreId s = true ->
                   Forall (fun item => InventoryItem.id item <> itemId)
                          (Store.inventory s)) stores.

Definition fresh_order_id (activeStoreId : option js_string) (itemId : js_string)
    (stores : list Store.t) : Prop :=
  Forall (fun s => isActive activeStoreId s = true ->
                   Forall (fun item => OrderItem.id item <> itemId)
                          (Store.orders s)) stores.

(** What an order update may do to one store. *)
Definition order_update_frame (settings : Settings.t) (activeStoreId : option js_string)
    (itemId : js_string) (updates : PartialOrderItem.t) (s s' : Store.t) : Prop :=
  Store.id s' = Store.id s /\
  Store.name s' = Store.name s /\
  Store.inventory s' = Store.inventory s /\
  Forall2 (fun o o' =>
             o' = o \/
             (isActive activeStoreId s = true /\ OrderItem.id o = itemId /\
              o' = updatedOrder settings updates o))
          (Store.orders s) (Store.orders s').

Definition inventory_update_frame (settings : Settings.t)
    (activeStoreId : option js_string) (itemId : js_string)
    (updates : PartialInventoryItem.t) (s s' : Store.t) : Prop :=
  Store.id s' = Store.id s /\
  Store.name s' = Store.name s /\
  Store.orders s' = Store.orders s /\
  Forall2 (fun i i' =>
             i' = i \/
             (isActive activeStoreId s = true /\ InventoryItem.id i = itemId /\
              i' = updatedInventoryItem settings updates i))
          (Store.inventory s) (Store.inventory s').

(** A decoder for [csvField], used to show that no two values share a
    cell: it undoes the doubling of quotation marks. *)
Fixpoint undoubleQuotes (s : js_string) : js_string :=
  match s with
  | [] => []
  | c :: r =>
      match r with
      | c' :: r' =>
          if (c =? 34)%N && (c' =? 34)%N then 34%N :: undoubleQuotes r'
          else c :: undoubleQuotes r
      | [] => [c]
      end
  end.

(** * Properties *)

(** ** Rounding *)


Lemma is_ceiling_unique (x : Q) (n m : Z) :
  is_ceiling x n -> is_ceiling x m -> n = m.
Proof.
  intros [Hn Hn'] [Hm Hm'].
  specialize (Hn' m Hm). specialize (Hm' n Hn). lia.
Qed.

Lemma Math_ceil_ge (x : Q) : x <= Math_ceil x.
Proof. apply Qle_ceiling. Qed.

Lemma Math_ceil_lt_succ (x : Q) : Math_ceil x < x + 1.
Proof.
  unfold Math_ceil.
  pose proof (Qceiling_lt x) as H.
  unfold Z.sub in H. rewrite inject_Z_plus in H.
  change (inject_Z (- (1))%Z) with (- (1))%Q in H. lra.
Qed.

Lemma Math_ceil_mono (x y : Q) : x <= y -> Math_ceil x <= Math_ceil y.
Proof.
  intros H. unfold Math_ceil. rewrite <- Zle_Qle.
  now apply Qceiling_resp_le.
Qed.

Lemma Math_ceil_ext (x y : Q) : x == y -> Math_ceil x = Math_ceil y.
Proof. intros H. unfold Math_ceil. now rewrite (Qceiling_comp _ _ H). Qed.


Lemma Math_ceil_strict (x y : Q) : x + 1 <= y -> Math_ceil x < Math_ceil y.
Proof.
  intros H.
  apply Qlt_le_trans with (x + 1); [apply Math_ceil_lt_succ|].
  apply Qle_trans with y; [exact H | apply Math_ceil_ge].
Qed.

(** ** Powers of two *)
Lemma pow2_pos e : 0 < pow2 e.
Proof. apply Qpower_0_lt. reflexivity. Qed.

Lemma pow2_nz e : ~ pow2 e == 0.
Proof. pose proof (pow2_pos e). lra. Qed.

Lemma pow2_plus a b : pow2 (a + b) == pow2 a * pow2 b.
Proof. apply Qpower_plus. discriminate. Qed.

Lemma pow2_le a b : (a <= b)%Z -> pow2 a <= pow2 b.
Proof. intros H. apply Qpower_le_compat_l; [exact H | discriminate]. Qed.

Lemma pow2_lt a b : (a < b)%Z -> pow2 a < pow2 b.
Proof. intros H. apply Qpower_lt_compat_l; [exact H | reflexivity]. Qed.

Lemma pow2_lt_inv a b : pow2 a < pow2 b -> (a < b)%Z.
Proof. intros H. apply (Qpower_lt_compat_l_inv 2); [exact H | reflexivity]. Qed.

Lemma pow2_Z e : (0 <= e)%Z -> pow2 e == inject_Z (2 ^ e).
Proof. intros H. unfold pow2. now rewrite Zpower_Qpower. Qed.

Lemma pow2_div a b : pow2 a / pow2 b == pow2 (a - b).
Proof.
  replace a with ((a - b) + b)%Z at 1 by lia.
  rewrite pow2_plus. field. apply pow2_nz.
Qed.

Lemma pow2_0 : pow2 0 == 1.
Proof. reflexivity. Qed.

(** ** The integer logarithm *)
Lemma ilog2_spec x : 0 < x -> pow2 (ilog2 x) <= x /\ x < pow2 (ilog2 x + 1).
Proof.
  intros Hx. destruct x as [n d]. unfold ilog2. cbn [Qnum Qden].
  assert (Hn : (0 < n)%Z).
  { unfold Qlt in Hx. simpl in Hx. lia. }
  set (a := Z.log2 n). set (b := Z.log2 (Zpos d)).
  assert (Ha : (2 ^ a <= n < 2 ^ (a + 1))%Z).
  { unfold a. pose proof (Z.log2_spec n Hn). now rewrite <- Z.add_1_r in H. }
  assert (Hb : (2 ^ b <= Zpos d < 2 ^ (b + 1))%Z).
  { unfold b. pose proof (Z.log2_spec (Zpos d) eq_refl). now rewrite <- Z.add_1_r in H. }
  assert (Ha0 : (0 <= a)%Z) by apply Z.log2_nonneg.
  assert (Hb0 : (0 <= b)%Z) by apply Z.log2_nonneg.
  assert (Hup : n # d < pow2 (a - b + 1)).
  { replace (a - b + 1)%Z with ((a + 1) - b)%Z by lia.
    rewrite <- pow2_div, !pow2_Z by lia.
    rewrite Qmake_Qdiv.
    apply Qlt_shift_div_l.
    - rewrite <- (pow2_Z b) by lia. apply pow2_pos.
    - assert (E : inject_Z n / inject_Z (Zpos d) * inject_Z (2 ^ b)
                  == inject_Z (n * 2 ^ b) / inject_Z (Zpos d)).
      { rewrite inject_Z_mult. field. discriminate. }
      rewrite E. apply Qlt_shift_div_r; [reflexivity|].
      rewrite <- inject_Z_mult, <- Zlt_Qlt. nia. }
  assert (Hlo : pow2 (a - b - 1) < n # d).
  { replace (a - b - 1)%Z with (a - (b + 1))%Z by lia.
    rewrite <- pow2_div, !pow2_Z by lia.
    rewrite Qmake_Qdiv.
    apply Qlt_shift_div_r.
    - rewrite <- (pow2_Z (b + 1)) by lia. apply pow2_pos.
    - assert (E : inject_Z n / inject_Z (Zpos d) * inject_Z (2 ^ (b + 1))
                  == inject_Z (n * 2 ^ (b + 1)) / inject_Z (Zpos d)).
      { rewrite inject_Z_mult. field. discriminate. }
      rewrite E. apply Qlt_shift_div_l; [reflexivity|].
      rewrite <- inject_Z_mult, <- Zlt_Qlt. nia. }
  destruct (Qle_bool (pow2 (a - b)) (n # d)) eqn:E.
  - apply Qle_bool_iff in E. split; assumption.
  - assert (Hlt : n # d < pow2 (a - b)).
    { apply Qnot_le_lt. intros H. apply Qle_bool_iff in H. congruence. }
    replace (a - b - 1 + 1)%Z with (a - b)%Z by lia.
    split; [apply Qlt_le_weak|]; assumption.
Qed.

Lemma ilog2_unique x k : pow2 k <= x -> x < pow2 (k + 1) -> ilog2 x = k.
Proof.
  intros Hlo Hhi.
  assert (Hx : 0 < x) by (pose proof (pow2_pos k); lra).
  destruct (ilog2_spec x Hx) as [Slo Shi].
  assert (H1 : (ilog2 x < k + 1)%Z).
  { apply pow2_lt_inv. lra. }
  assert (H2 : (k < ilog2 x + 1)%Z).
  { apply pow2_lt_inv. lra. }
  lia.
Qed.

Lemma ilog2_mono x y : 0 < x -> x <= y -> (ilog2 x <= ilog2 y)%Z.
Proof.
  intros Hx Hxy.
  destruct (ilog2_spec x Hx) as [Xlo _].
  destruct (ilog2_spec y) as [_ Yhi]; [lra|].
  assert (H : (ilog2 x < ilog2 y + 1)%Z) by (apply pow2_lt_inv; lra).
  lia.
Qed.

Lemma ilog2_ext x y : 0 < x -> x == y -> ilog2 x = ilog2 y.
Proof.
  intros Hx E. symmetry. destruct (ilog2_spec x Hx) as [Lo Hi].
  apply ilog2_unique; rewrite <- E; assumption.
Qed.

(** ** Rounding to the nearest integer *)
Lemma Qfloor_unique (m : Q) (z : Z) : inject_Z z <= m -> m < inject_Z z + 1 -> Qfloor m = z.
Proof.
  intros Hlo Hhi.
  pose proof (Qfloor_le m) as F1. pose proof (Qlt_floor m) as F2.
  rewrite inject_Z_plus in F2. change (inject_Z 1) with 1 in F2.
  assert (H1 : (Qfloor m < z + 1)%Z).
  { rewrite Zlt_Qlt, inject_Z_plus. change (inject_Z 1) with 1. lra. }
  assert (H2 : (z < Qfloor m + 1)%Z).
  { rewrite Zlt_Qlt, inject_Z_plus. change (inject_Z 1) with 1. lra. }
  lia.
Qed.

Lemma rne_ext (m m' : Q) : m == m' -> rne m = rne m'.
Proof.
  intros E. unfold rne. rewrite (Qfloor_comp _ _ E).
  assert (E' : m - inject_Z (Qfloor m') == m' - inject_Z (Qfloor m')) by now rewrite E.
  now rewrite (Qcompare_comp _ _ E' _ _ (Qeq_refl (1 # 2))).
Qed.

Lemma rne_bounds (m : Q) : (Qfloor m <= rne m <= Qfloor m + 1)%Z.
Proof.
  unfold rne. destruct (Qcompare _ _); [destruct (Z.even _)| |]; lia.
Qed.

Lemma rne_Z (n : Z) : rne (inject_Z n) = n.
Proof.
  unfold rne. rewrite Qfloor_Z.
  destruct (Qcompare_spec (inject_Z n - inject_Z n) (1 # 2)) as [C | C | C];
    [lra | reflexivity | lra].
Qed.

Lemma rne_mono (m1 m2 : Q) : m1 <= m2 -> (rne m1 <= rne m2)%Z.
Proof.
  intros H.
  pose proof (Qfloor_resp_le _ _ H) as Hf.
  pose proof (rne_bounds m1) as B1. pose proof (rne_bounds m2) as B2.
  destruct (Z.eq_dec (Qfloor m1) (Qfloor m2)) as [E | N]; [|lia].
  unfold rne. rewrite E.
  destruct (Qcompare_spec (m1 - inject_Z (Qfloor m2)) (1 # 2)) as [C1 | C1 | C1];
    destruct (Qcompare_spec (m2 - inject_Z (Qfloor m2)) (1 # 2)) as [C2 | C2 | C2];
    try lia; try lra; destruct (Z.even (Qfloor m2)); lia.
Qed.

Lemma rne_opp (m : Q) : rne (- m) = (- rne m)%Z.
Proof.
  pose proof (Qfloor_le m) as F1. pose proof (Qlt_floor m) as F2.
  rewrite inject_Z_plus in F2. change (inject_Z 1) with 1 in F2.
  set (f := Qfloor m) in *.
  destruct (Qeq_dec m (inject_Z f)) as [E | N].
  - rewrite (rne_ext m _ E).
    assert (E' : - m == inject_Z (- f)) by (rewrite inject_Z_opp, E; reflexivity).
    rewrite (rne_ext _ _ E'). now rewrite !rne_Z.
  - assert (Hf' : Qfloor (- m) = (- f - 1)%Z).
    { apply Qfloor_unique.
      - unfold Z.sub. rewrite inject_Z_plus, inject_Z_opp.
        change (inject_Z (- (1))%Z) with (- (1))%Q. lra.
      - unfold Z.sub. rewrite inject_Z_plus, inject_Z_opp.
        change (inject_Z (- (1))%Z) with (- (1))%Q.
        assert (inject_Z f < m) by (apply Qle_lteq in F1; destruct F1 as [F1|F1];
                                    [exact F1 | exfalso; apply N; now symmetry]).
        lra. }
    unfold rne. rewrite Hf'. fold f.
    assert (R : - m - inject_Z (- f - 1) == 1 - (m - inject_Z f)).
    { unfold Z.sub. rewrite inject_Z_plus, inject_Z_opp.
      change (inject_Z (- (1))%Z) with (- (1))%Q. ring. }
    rewrite (Qcompare_comp _ _ R _ _ (Qeq_refl (1 # 2))).
    destruct (Qcompare_spec (m - inject_Z f) (1 # 2)) as [C | C | C];
      destruct (Qcompare_spec (1 - (m - inject_Z f)) (1 # 2)) as [C' | C' | C'];
      try lra; try lia.
    replace (- f - 1)%Z with (- (f + 1))%Z by lia.
    rewrite Z.even_opp, Z.even_add. simpl.
    destruct (Z.even f); simpl; lia.
Qed.

(** ** Rounding to the nearest double *)
Lemma round64_zero (x : Q) : x == 0 -> round64 x = 0.
Proof. intros E. unfold round64. apply Qeq_bool_iff in E. now rewrite E. Qed.

Lemma round64_nz (x : Q) :
  ~ x == 0 -> round64 x == inject_Z (rne (x / pow2 (cexp x))) * pow2 (cexp x).
Proof.
  intros N. unfold round64.
  destruct (Qeq_bool x 0) eqn:E; [apply Qeq_bool_iff in E; contradiction|].
  apply Qred_correct.
Qed.

Lemma Qabs_pos_nz (x : Q) : ~ x == 0 -> 0 < Qabs x.
Proof.
  intros N. apply Qabs_case; intros H.
  - apply Qle_lteq in H. destruct H as [H | H]; [exact H|].
    exfalso. apply N. now symmetry.
  - apply Qle_lteq in H. destruct H as [H | H]; [lra | contradiction].
Qed.

Lemma cexp_ext (x y : Q) : ~ x == 0 -> x == y -> cexp x = cexp y.
Proof.
  intros N E. unfold cexp. f_equal. f_equal.
  apply ilog2_ext; [now apply Qabs_pos_nz | now apply Qabs_wd].
Qed.

Lemma round64_ext (x y : Q) : x == y -> round64 x = round64 y.
Proof.
  intros E. unfold round64.
  destruct (Qeq_bool x 0) eqn:Ex.
  - apply Qeq_bool_iff in Ex. rewrite E in Ex. apply Qeq_bool_iff in Ex. now rewrite Ex.
  - assert (N : ~ x == 0) by now apply Qeq_bool_neq.
    assert (Ey : Qeq_bool y 0 = false).
    { destruct (Qeq_bool y 0) eqn:Ey; [|reflexivity].
      apply Qeq_bool_iff in Ey. rewrite <- E in Ey. contradiction. }
    rewrite Ey. apply Qred_complete.
    rewrite <- (cexp_ext x y N E).
    assert (Em : x / pow2 (cexp x) == y / pow2 (cexp x))
      by (apply Qdiv_comp; [exact E | reflexivity]).
    now rewrite (rne_ext _ _ Em).
Qed.

Lemma cexp_opp (x : Q) : cexp (- x) = cexp x.
Proof.
  unfold cexp. f_equal. f_equal.
  destruct (Qeq_dec x 0) as [E | N].
  - assert (Qabs (- x) = Qabs x); [|congruence].
    destruct x as [n d]. unfold Qeq in E. simpl in E.
    assert (n = 0%Z) by lia. subst n. reflexivity.
  - apply ilog2_ext; [|apply Qabs_opp].
    apply Qabs_pos_nz. intros H. apply N. lra.
Qed.

Lemma round64_opp (x : Q) : round64 (- x) == - round64 x.
Proof.
  destruct (Qeq_dec x 0) as [E | N].
  - rewrite (round64_zero x E). rewrite round64_zero; [reflexivity | lra].
  - rewrite !round64_nz; [| exact N | lra].
    rewrite cexp_opp.
    assert (Em : - x / pow2 (cexp x) == - (x / pow2 (cexp x))).
    { field. apply pow2_nz. }
    rewrite (rne_ext _ _ Em), rne_opp, inject_Z_opp. ring.
Qed.

Lemma cexp_mono (x y : Q) : 0 < x -> x <= y -> (cexp x <= cexp y)%Z.
Proof.
  intros Hx Hxy. unfold cexp.
  rewrite (ilog2_ext (Qabs x) x), (ilog2_ext (Qabs y) y).
  - pose proof (ilog2_mono x y Hx Hxy). lia.
  - rewrite Qabs_pos; lra.
  - apply Qabs_pos; lra.
  - rewrite Qabs_pos; lra.
  - apply Qabs_pos; lra.
Qed.

Lemma cexp_pos (x : Q) : 0 < x -> cexp x = Z.max (ilog2 x - 52) (-1074).
Proof.
  intros Hx. unfold cexp. rewrite (ilog2_ext (Qabs x) x); [reflexivity| |].
  - rewrite Qabs_pos; lra.
  - apply Qabs_pos; lra.
Qed.

Lemma round64_nonneg (x : Q) : 0 <= x -> 0 <= round64 x.
Proof.
  intros Hx. destruct (Qeq_dec x 0) as [E | N].
  - rewrite (round64_zero x E). lra.
  - rewrite (round64_nz x N).
    apply Qmult_le_0_compat; [|apply Qlt_le_weak, pow2_pos].
    assert (H : (rne (inject_Z 0) <= rne (x / pow2 (cexp x)))%Z).
    { apply rne_mono. apply Qle_shift_div_l; [apply pow2_pos|].
      change (inject_Z 0) with 0. lra. }
    rewrite rne_Z in H. change 0 with (inject_Z 0). now rewrite <- Zle_Qle.
Qed.

Lemma scaled_le (a b : Q) (e : Z) : a <= b -> a / pow2 e <= b / pow2 e.
Proof.
  intros H. unfold Qdiv. apply Qmult_le_compat_r; [exact H|].
  apply Qlt_le_weak, Qinv_lt_0_compat, pow2_pos.
Qed.

Lemma round64_mono_pos (x y : Q) : 0 < x -> x <= y -> round64 x <= round64 y.
Proof.
  intros Hx Hxy.
  assert (Hy : 0 < y) by lra.
  rewrite (round64_nz x), (round64_nz y) by lra.
  pose proof (cexp_mono x y Hx Hxy) as Hc.
  destruct (Z.eq_dec (cexp x) (cexp y)) as [E | N].
  - rewrite E. apply Qmult_le_compat_r; [|apply Qlt_le_weak, pow2_pos].
    rewrite <- Zle_Qle. apply rne_mono. now apply scaled_le.
  - assert (Hlt : (cexp x < cexp y)%Z) by lia.
    set (ex := cexp x) in *. set (ey := cexp y) in *.
    assert (Ey : ey = (ilog2 y - 52)%Z).
    { unfold ey in *. rewrite (cexp_pos y Hy) in *.
      unfold ex in Hlt. rewrite (cexp_pos x Hx) in Hlt. lia. }
    assert (Ex : (ilog2 x - 52 <= ex)%Z).
    { unfold ex. rewrite (cexp_pos x Hx). lia. }
    destruct (ilog2_spec x Hx) as [_ Xhi].
    destruct (ilog2_spec y Hy) as [Ylo _].
    apply Qle_trans with (pow2 (ey + 52)).
    + assert (Hm : x / pow2 ex <= inject_Z (2 ^ (ey + 52 - ex))).
      { rewrite <- pow2_Z by lia. rewrite <- pow2_div.
        apply scaled_le. apply Qlt_le_weak.
        apply Qlt_le_trans with (pow2 (ilog2 x + 1)); [exact Xhi|].
        apply pow2_le. lia. }
      apply rne_mono in Hm. rewrite rne_Z in Hm.
      apply Qle_trans with (inject_Z (2 ^ (ey + 52 - ex)) * pow2 ex).
      * apply Qmult_le_compat_r; [|apply Qlt_le_weak, pow2_pos].
        now rewrite <- Zle_Qle.
      * rewrite <- pow2_Z by lia. rewrite <- pow2_plus.
        replace (ey + 52 - ex + ex)%Z with (ey + 52)%Z by lia. apply Qle_refl.
    + assert (Hm : inject_Z (2 ^ 52) <= y / pow2 ey).
      { rewrite <- pow2_Z by lia.
        apply Qle_shift_div_l; [apply pow2_pos|].
        rewrite <- pow2_plus. replace (52 + ey)%Z with (ilog2 y) by lia. exact Ylo. }
      apply rne_mono in Hm. rewrite rne_Z in Hm.
      apply Qle_trans with (inject_Z (2 ^ 52) * pow2 ey).
      * rewrite <- pow2_Z by lia. rewrite <- pow2_plus.
        replace (52 + ey)%Z with (ey + 52)%Z by lia. apply Qle_refl.
      * apply Qmult_le_compat_r; [|apply Qlt_le_weak, pow2_pos].
        now rewrite <- Zle_Qle.
Qed.

Lemma round64_mono (x y : Q) : x <= y -> round64 x <= round64 y.
Proof.
  intros Hxy.
  destruct (Qlt_le_dec 0 x) as [Hx | Hx].
  - now apply round64_mono_pos.
  - destruct (Qlt_le_dec y 0) as [Hy | Hy].
    + assert (H : round64 (- y) <= round64 (- x)) by (apply round64_mono_pos; lra).
      rewrite !round64_opp in H. lra.
    + apply Qle_trans with 0; [|now apply round64_nonneg].
      assert (H : 0 <= round64 (- x)) by (apply round64_nonneg; lra).
      rewrite round64_opp in H. lra.
Qed.

Lemma round64_fix (n e : Z) (y : Q) :
  0 < y -> y == inject_Z n * pow2 e -> (cexp y <= e)%Z -> round64 y == y.
Proof.
  intros Hy E Hc.
  rewrite round64_nz by lra.
  set (c := cexp y) in *.
  assert (Em : y / pow2 c == inject_Z (n * 2 ^ (e - c))).
  { rewrite inject_Z_mult, <- pow2_Z by lia. rewrite <- pow2_div, E.
    field. apply pow2_nz. }
  rewrite (rne_ext _ _ Em), rne_Z.
  rewrite inject_Z_mult, <- pow2_Z by lia. rewrite <- pow2_div, E.
  field. apply pow2_nz.
Qed.

Lemma round64_idem_pos (x : Q) : 0 < x -> round64 (round64 x) == round64 x.
Proof.
  intros Hx.
  pose proof (round64_nz x) as Hy. specialize (Hy ltac:(lra)).
  set (e := cexp x) in *. set (n := rne (x / pow2 e)) in *.
  set (y := round64 x) in *.
  assert (He : (-1074 <= e)%Z /\ (ilog2 x - 52 <= e)%Z).
  { unfold e. rewrite (cexp_pos x Hx). lia. }
  destruct (ilog2_spec x Hx) as [_ Xhi].
  assert (Hn0 : (0 <= n)%Z).
  { unfold n. rewrite <- (rne_Z 0) at 1. apply rne_mono.
    change (inject_Z 0) with 0. apply Qle_shift_div_l; [apply pow2_pos | lra]. }
  assert (Hn53 : (n <= 2 ^ 53)%Z).
  { unfold n. rewrite <- (rne_Z (2 ^ 53)). apply rne_mono.
    rewrite <- pow2_Z by lia.
    apply Qle_shift_div_r; [apply pow2_pos|].
    rewrite <- pow2_plus. apply Qlt_le_weak.
    apply Qlt_le_trans with (pow2 (ilog2 x + 1)); [exact Xhi|].
    apply pow2_le. lia. }
  destruct (Z.eq_dec n 0) as [Z0 | NZ].
  - assert (E0 : y == 0) by (rewrite Hy, Z0; ring).
    rewrite (round64_zero y E0). now rewrite E0.
  - assert (Hypos : 0 < y).
    { rewrite Hy. apply Qmult_lt_0_compat; [|apply pow2_pos].
      change 0 with (inject_Z 0). rewrite <- Zlt_Qlt. lia. }
    destruct (Z.eq_dec n (2 ^ 53)) as [E53 | N53].
    + assert (Ey : y == pow2 (e + 53)).
      { rewrite Hy, E53, <- pow2_Z by lia. rewrite <- pow2_plus.
        replace (53 + e)%Z with (e + 53)%Z by lia. reflexivity. }
      apply (round64_fix (2 ^ 52) (e + 1)); [exact Hypos| |].
      * rewrite Ey, <- pow2_Z by lia. rewrite <- pow2_plus.
        replace (52 + (e + 1))%Z with (e + 53)%Z by lia. reflexivity.
      * rewrite (cexp_pos y Hypos).
        assert (Hl : ilog2 y = (e + 53)%Z).
        { apply ilog2_unique; rewrite Ey; [apply Qle_refl | apply pow2_lt; lia]. }
        lia.
    + apply (round64_fix n e); [exact Hypos | exact Hy |].
      rewrite (cexp_pos y Hypos).
      destruct (ilog2_spec y Hypos) as [Ylo _].
      assert (Hlt : pow2 (ilog2 y) < pow2 (e + 53)).
      { apply Qle_lt_trans with y; [exact Ylo|].
        rewrite Hy, pow2_plus, (pow2_Z 53) by lia.
        rewrite (Qmult_comm (pow2 e)).
        apply Qmult_lt_compat_r; [apply pow2_pos|].
        rewrite <- Zlt_Qlt. lia. }
      apply pow2_lt_inv in Hlt. lia.
Qed.

Lemma round64_idem (x : Q) : round64 (round64 x) == round64 x.
Proof.
  destruct (Qlt_le_dec 0 x) as [Hp | Hn].
  - now apply round64_idem_pos.
  - destruct (Qeq_dec x 0) as [E | N].
    + rewrite (round64_zero x E). reflexivity.
    + assert (Hneg : 0 < - x).
      { apply Qle_lteq in Hn. destruct Hn as [Hn | Hn]; [lra | contradiction]. }
      assert (E1 : round64 x == - round64 (- x)).
      { rewrite round64_opp. ring. }
      rewrite (round64_ext _ _ E1), round64_opp, (round64_idem_pos _ Hneg).
      rewrite E1. reflexivity.
Qed.

Lemma is_double_round64 (x : Q) : is_double (round64 x).
Proof. apply round64_idem. Qed.

Lemma is_double_grid (f : Q) : is_double f -> exists K : Z, f * pow2 1074 == inject_Z K.
Proof.
  intros Hf. destruct (Qeq_dec f 0) as [E | N].
  - exists 0%Z. rewrite E. reflexivity.
  - unfold is_double in Hf. rewrite (round64_nz f N) in Hf.
    set (c := cexp f) in *. set (n := rne (f / pow2 c)) in *.
    assert (Hc : (-1074 <= c)%Z) by (unfold c, cexp; lia).
    exists (n * 2 ^ (c + 1074))%Z.
    rewrite <- Hf, inject_Z_mult, <- pow2_Z by lia.
    rewrite (pow2_plus c 1074). ring.
Qed.

Lemma pow2_min_double : round64 (pow2 (-1074)) == pow2 (-1074).
Proof.
  apply (round64_fix 1 (-1074)); [apply pow2_pos | ring |].
  rewrite (cexp_pos _ (pow2_pos _)).
  assert (H : ilog2 (pow2 (-1074)) = (-1074)%Z).
  { apply ilog2_unique; [apply Qle_refl | apply pow2_lt; lia]. }
  lia.
Qed.

Lemma one_minus_double_pos (f : Q) : is_double f -> f < 1 -> 0 < round64 (1 - f).
Proof.
  intros Hf H1.
  destruct (is_double_grid f Hf) as [K HK].
  assert (Hp : pow2 (-1074) * pow2 1074 == 1).
  { rewrite <- pow2_plus. reflexivity. }
  pose proof (pow2_pos 1074) as P1. pose proof (pow2_pos (-1074)) as P2.
  assert (E : (1 - f) * pow2 1074 == inject_Z (2 ^ 1074 - K)).
  { unfold Z.sub. rewrite inject_Z_plus, inject_Z_opp, <- HK.
    rewrite <- (pow2_Z 1074) by lia. ring. }
  assert (Hpos : 0 < (1 - f) * pow2 1074).
  { apply Qmult_lt_0_compat; lra. }
  rewrite E in Hpos. change 0 with (inject_Z 0) in Hpos. rewrite <- Zlt_Qlt in Hpos.
  assert (H1K : inject_Z 1 <= inject_Z (2 ^ 1074 - K)) by (rewrite <- Zle_Qle; lia).
  rewrite <- E in H1K. change (inject_Z 1) with 1 in H1K.
  assert (Hge : pow2 (-1074) <= 1 - f).
  { assert (H : 1 - f == (1 - f) * pow2 1074 * pow2 (-1074)).
    { rewrite <- Qmult_assoc, (Qmult_comm (pow2 1074)), Hp. ring. }
    rewrite H.
    setoid_replace (pow2 (-1074)) with (1 * pow2 (-1074)) at 1 by ring.
    apply Qmult_le_compat_r; lra. }
  apply Qlt_le_trans with (round64 (pow2 (-1074))).
  - rewrite pow2_min_double. exact P2.
  - now apply round64_mono.
Qed.

Lemma round64_1 : round64 1 == 1.
Proof. vm_compute. reflexivity. Qed.


Opaque round64.

(** ** The rounded operations *)

Lemma js_add_ge_left (a b : Q) : is_double a -> 0 <= b -> a <= js_add a b.
Proof.
  intros Ha Hb. unfold js_add, is_double in *. rewrite <- Ha at 1.
  apply round64_mono. lra.
Qed.

Lemma js_add_is_double (a b : Q) : is_double (js_add a b).
Proof. apply round64_idem. Qed.

Lemma js_mul_is_double (a b : Q) : is_double (js_mul a b).
Proof. apply round64_idem. Qed.

Lemma Qdiv_le_mono (a b d : Q) : 0 <= d -> a <= b -> a / d <= b / d.
Proof.
  intros Hd Hab. unfold Qdiv.
  apply Qmult_le_compat_r; [exact Hab|].
  now apply Qinv_le_0_compat.
Qed.

Lemma Qdiv_ge_self (a d : Q) : 0 <= a -> 0 < d -> d <= 1 -> a <= a / d.
Proof.
  intros Ha Hd Hd1.
  apply Qle_shift_div_l; [exact Hd|].
  assert (H : 0 <= a * (1 - d)) by (apply Qmult_le_0_compat; lra).
  lra.
Qed.

Lemma js_div_ge (a d : Q) : is_double a -> 0 <= a -> 0 < d -> d <= 1 -> a <= js_div a d.
Proof.
  intros Ha H0 Hd Hd1. unfold js_div, is_double in *. rewrite <- Ha at 1.
  apply round64_mono. now apply Qdiv_ge_self.
Qed.

Lemma js_div_mono (a b d : Q) : 0 <= d -> a <= b -> js_div a d <= js_div b d.
Proof. intros Hd Hab. apply round64_mono. now apply Qdiv_le_mono. Qed.

Lemma js_sub_fee_nonneg (s : Settings.t) :
  valid_fee s -> 0 <= js_sub 1 (Settings.platformFeeRate s).
Proof. intros [_ Hf]. apply round64_nonneg. lra. Qed.

Lemma js_sub_fee_le_1 (s : Settings.t) :
  valid_fee s -> js_sub 1 (Settings.platformFeeRate s) <= 1.
Proof.
  intros [Hf _]. unfold js_sub. rewrite <- round64_1 at 2.
  apply round64_mono. lra.
Qed.

Lemma calculateSellingPrice_unfold (costCNY : Q) (s : Settings.t) :
  calculateSellingPrice costCNY s = Math_ceil (js_price costCNY s).
Proof. unfold calculateSellingPrice, js_price, js_total. cbv zeta. reflexivity. Qed.

Lemma js_total_ge_base (c : Q) (s : Settings.t) :
  nonneg_addons s -> js_mul c (Settings.exchangeRate s) <= js_total c s.
Proof.
  intros (Hi & Hd & Ht). unfold js_total.
  eapply Qle_trans; [|apply js_add_ge_left; [apply js_add_is_double | exact Ht]].
  eapply Qle_trans; [|apply js_add_ge_left; [apply js_add_is_double | exact Hd]].
  apply js_add_ge_left; [apply js_mul_is_double | exact Hi].
Qed.

Lemma js_total_mono_cost (s : Settings.t) (c1 c2 : Q) :
  0 <= Settings.exchangeRate s -> c1 <= c2 -> js_total c1 s <= js_total c2 s.
Proof.
  intros Hr Hc. unfold js_total, js_add, js_mul.
  assert (H0 : round64 (c1 * Settings.exchangeRate s)
               <= round64 (c2 * Settings.exchangeRate s)).
  { apply round64_mono.
    assert (H : 0 <= (c2 - c1) * Settings.exchangeRate s)
      by (apply Qmult_le_0_compat; lra).
    lra. }
  apply round64_mono. apply Qplus_le_compat; [|apply Qle_refl].
  apply round64_mono. apply Qplus_le_compat; [|apply Qle_refl].
  apply round64_mono. apply Qplus_le_compat; [exact H0 | apply Qle_refl].
Qed.

Lemma js_total_mono_rate (s1 s2 : Settings.t) (c : Q) :
  same_but_rate s1 s2 -> 0 <= c ->
  Settings.exchangeRate s1 <= Settings.exchangeRate s2 ->
  js_total c s1 <= js_total c s2.
Proof.
  intros (Hi & Hd & Ht & _) Hc Hr. unfold js_total, js_add, js_mul.
  assert (H0 : round64 (c * Settings.exchangeRate s1)
               <= round64 (c * Settings.exchangeRate s2)).
  { apply round64_mono.
    assert (H : 0 <= c * (Settings.exchangeRate s2 - Settings.exchangeRate s1))
      by (apply Qmult_le_0_compat; lra).
    lra. }
  apply round64_mono. apply Qplus_le_compat; [|rewrite Ht; apply Qle_refl].
  apply round64_mono. apply Qplus_le_compat; [|rewrite Hd; apply Qle_refl].
  apply round64_mono. apply Qplus_le_compat; [exact H0 | rewrite Hi; apply Qle_refl].
Qed.


(** ** The formulas on the specification's scenarios *)

(** Scenario 2: 50 CNY at rate 23 with the flat shipping is 2150 JPY, and a
    payment of 3000 JPY leaves 850 JPY. *)
Example scenario_order_profit :
  calculateConvertedWithShipping 50 23 None = 2150 /\
  calculateProfit 3000 (calculateConvertedWithShipping 50 23 None) == 850.
Proof. split; vm_compute; reflexivity. Qed.

(** Scenario 3: moving the rate from 23 to 25 and sweeping the sample store
    re-prices the coat and the scarf and keeps their descriptions. *)
Example scenario_rate_change :
  recalculateAllPrices rate25Settings [sampleStore]
  = [ {| Store.id := lit "s1";
         Store.name := lit "Shop";
         Store.inventory :=
           [ {| InventoryItem.id := lit "i1";
                InventoryItem.photo := [];
                InventoryItem.productName := lit "Coat";
                InventoryItem.color := lit "blue";
                InventoryItem.size := lit "L";
                InventoryItem.quantity := 2;
                InventoryItem.costPriceCNY := 100;
                InventoryItem.sellingPriceJPY := 13462 |} ];
         Store.orders :=
           [ {| OrderItem.id := lit "o1";
                OrderItem.photo := [];
                OrderItem.productName := lit "Scarf";
                OrderItem.color := lit "red";
                OrderItem.size := lit "M";
                OrderItem.costPriceCNY := 50;
                OrderItem.convertedWithShipping := 2250;
                OrderItem.actualPayment := 3000;
                OrderItem.profit := 3000 - 2250;
                OrderItem.createdAt := lit "2026-01-15T00:00:00.000Z";
                OrderItem.completedAt := None |} ] |} ].
Proof. vm_compute. reflexivity. Qed.

(** ** The selling price *)




(** C5, the claim as stated fails: with rate 10, no add-ons and no fee, the
    cost 0.1 (the double nearest to one tenth, slightly above it) times 10 is
    slightly above 1 in exact arithmetic; binary64 rounds the product to 1
    and the code returns 1, below the exact product. *)
Lemma calculateSellingPrice_below_exact_product :
  0 <= double (1 # 10) /\
  is_double (double (1 # 10)) /\
  0 < Settings.exchangeRate bareSettings /\
  valid_fee bareSettings /\
  nonneg_addons bareSettings /\
  calculateSellingPrice (double (1 # 10)) bareSettings = 1 /\
  ~ double (1 # 10) * Settings.exchangeRate bareSettings
    <= calculateSellingPrice (double (1 # 10)) bareSettings.
Proof.
  split; [vm_compute; discriminate|].
  split; [vm_compute; reflexivity|].
  split; [reflexivity|].
  split; [split; [discriminate | reflexivity]|].
  split; [repeat split; discriminate|].
  split; [vm_compute; reflexivity|].
  vm_compute. intros H. now apply H.
Qed.

(** C5, amended.  With a positive exchange rate, a fee rate in [0,1) that is
    a double and non-negative shipping and profit add-ons, the selling
    price of a non-negative cost is never below costCNY * exchangeRate as
    binary64 computes that product. *)
Theorem calculateSellingPrice_covers_converted_cost (costCNY : Q) (s : Settings.t) :
  0 <= costCNY ->
  0 < Settings.exchangeRate s ->
  valid_fee s ->
  is_double (Settings.platformFeeRate s) ->
  nonneg_addons s ->
  js_mul costCNY (Settings.exchangeRate s) <= calculateSellingPrice costCNY s.
Proof.
  intros Hc Hr Hf Hdbl Ha.
  rewrite calculateSellingPrice_unfold.
  assert (Hbase : 0 <= js_mul costCNY (Settings.exchangeRate s)).
  { apply round64_nonneg. apply Qmult_le_0_compat; lra. }
  pose proof (js_total_ge_base costCNY s Ha) as Htot.
  apply Qle_trans with (js_total costCNY s); [exact Htot|].
  apply Qle_trans with (js_price costCNY s); [|apply Math_ceil_ge].
  unfold js_price. apply js_div_ge.
  - unfold js_total. apply js_add_is_double.
  - lra.
  - apply one_minus_double_pos; [exact Hdbl | apply Hf].
  - now apply js_sub_fee_le_1.
Qed.

Lemma calculateSellingPrice_covers_converted_cost_witness :
  js_mul (double (1 # 10)) (Settings.exchangeRate bareSettings)
  <= calculateSellingPrice (double (1 # 10)) bareSettings.
Proof.
  apply (calculateSellingPrice_covers_converted_cost (double (1 # 10)) bareSettings).
  - vm_compute. discriminate.
  - reflexivity.
  - split; [discriminate | reflexivity].
  - vm_compute. reflexivity.
  - repeat split; discriminate.
Defined.

(** C6, the claim as stated fails: with the default settings the costs 100
    and 100.01 get the same price 13206, and at cost 0 the exchange rates 23
    and 25 get the same price 10257. *)
Lemma calculateSellingPrice_not_strictly_increasing :
  (100 < double (10001 # 100) /\
   calculateSellingPrice 100 defaultSettings = 13206 /\
   calculateSellingPrice (double (10001 # 100)) defaultSettings = 13206 /\
   ~ calculateSellingPrice 100 defaultSettings
     < calculateSellingPrice (double (10001 # 100)) defaultSettings) /\
  (Settings.exchangeRate defaultSettings < Settings.exchangeRate rate25Settings /\
   same_but_rate defaultSettings rate25Settings /\
   calculateSellingPrice 0 defaultSettings = 10257 /\
   calculateSellingPrice 0 rate25Settings = 10257 /\
   ~ calculateSellingPrice 0 defaultSettings < calculateSellingPrice 0 rate25Settings).
Proof.
  repeat split; try reflexivity; vm_compute; discriminate.
Qed.

(** C6, amended.  For a fee rate in [0,1) the selling price is non-decreasing
    in the cost (exchange rate non-negative) and non-decreasing in the
    exchange rate (cost non-negative, other settings fixed); it increases
    strictly as soon as the binary64 values of the price before Math.ceil
    are at least 1 apart. *)
Theorem calculateSellingPrice_monotone (s s' : Settings.t) (c1 c2 : Q) :
  valid_fee s ->
  (0 <= Settings.exchangeRate s -> c1 <= c2 ->
   calculateSellingPrice c1 s <= calculateSellingPrice c2 s) /\
  (same_but_rate s s' -> 0 <= c1 ->
   Settings.exchangeRate s <= Settings.exchangeRate s' ->
   calculateSellingPrice c1 s <= calculateSellingPrice c1 s') /\
  (js_price c1 s + 1 <= js_price c2 s ->
   calculateSellingPrice c1 s < calculateSellingPrice c2 s) /\
  (js_price c1 s + 1 <= js_price c1 s' ->
   calculateSellingPrice c1 s < calculateSellingPrice c1 s').
Proof.
  intros Hf. rewrite !calculateSellingPrice_unfold.
  pose proof (js_sub_fee_nonneg s Hf) as Hd.
  split; [|split; [|split]].
  - intros Hr Hc. apply Math_ceil_mono. unfold js_price.
    apply js_div_mono; [exact Hd|]. now apply js_total_mono_cost.
  - intros Hs Hc Hr. apply Math_ceil_mono. unfold js_price.
    assert (E : js_sub 1 (Settings.platformFeeRate s')
                = js_sub 1 (Settings.platformFeeRate s)).
    { apply round64_ext. destruct Hs as (_ & _ & _ & Hp). rewrite Hp. reflexivity. }
    rewrite E. apply js_div_mono; [exact Hd|]. now apply js_total_mono_rate.
  - apply Math_ceil_strict.
  - apply Math_ceil_strict.
Qed.

Lemma calculateSellingPrice_monotone_witness :
  calculateSellingPrice 100 defaultSettings <= calculateSellingPrice 101 defaultSettings /\
  calculateSellingPrice 100 defaultSettings <= calculateSellingPrice 100 rate25Settings /\
  calculateSellingPrice 100 defaultSettings < calculateSellingPrice 101 defaultSettings /\
  calculateSellingPrice 100 defaultSettings < calculateSellingPrice 100 rate25Settings.
Proof.
  assert (Hf : valid_fee defaultSettings)
    by (split; vm_compute; [discriminate | reflexivity]).
  destruct (calculateSellingPrice_monotone defaultSettings rate25Settings 100 101 Hf)
    as (H1 & H2 & H3 & H4).
  split; [|split; [|split]].
  - apply H1; discriminate.
  - apply H2; [repeat split | discriminate | discriminate].
  - apply H3. vm_compute. discriminate.
  - apply H4. vm_compute. discriminate.
Defined.




(** ** The recalculation sweep *)

Lemma Forall2_map_graph {A B : Type} (R : A -> B -> Prop) (f : A -> B) (l : list A) :
  (forall x, R x (f x)) -> Forall2 R l (map f l).
Proof.
  intros H. induction l as [|x l IH]; simpl; constructor; auto.
Qed.

Lemma recalculateInventoryItem_spec (settings : Settings.t) (item : InventoryItem.t) :
  inventory_recalculated settings item (recalculateInventoryItem settings item).
Proof. unfold inventory_recalculated. simpl. tauto. Qed.

Lemma recalculateOrderItem_spec (settings : Settings.t) (order : OrderItem.t) :
  order_recalculated settings order (recalculateOrderItem settings order).
Proof. unfold order_recalculated. simpl. tauto. Qed.

(** C2.  The sweep returns the same stores in the same order, each with the
    same id and name and the same items in the same positions; every
    inventory item has its selling price re-derived from its own cost under
    the given settings, every order has its converted cost re-derived (flat
    shipping) and its profit set to actualPayment minus that value, and
    every other field of every item is the one it had. *)
Theorem recalculateAllPrices_frame (settings : Settings.t) (prev : list Store.t) :
  Forall2 (store_recalculated settings) prev (recalculateAllPrices settings prev).
Proof.
  unfold recalculateAllPrices.
  apply Forall2_map_graph. intros store.
  unfold store_recalculated; simpl.
  repeat split.
  - apply Forall2_map_graph, recalculateInventoryItem_spec.
  - apply Forall2_map_graph, recalculateOrderItem_spec.
Qed.

Lemma recalculateInventoryItem_idem (settings : Settings.t) (item : InventoryItem.t) :
  recalculateInventoryItem settings (recalculateInventoryItem settings item)
  = recalculateInventoryItem settings item.
Proof. reflexivity. Qed.

Lemma recalculateOrderItem_idem (settings : Settings.t) (order : OrderItem.t) :
  recalculateOrderItem settings (recalculateOrderItem settings order)
  = recalculateOrderItem settings order.
Proof. reflexivity. Qed.

Lemma map_idem {A : Type} (f : A -> A) (l : list A) :
  (forall x, f (f x) = f x) -> map f (map f l) = map f l.
Proof.
  intros H. rewrite map_map. apply map_ext. intros x. apply H.
Qed.

(** C3.  Running the sweep a second time with the same settings returns
    exactly the stores the first run returned. *)
Theorem recalculateAllPrices_idempotent (settings : Settings.t) (prev : list Store.t) :
  recalculateAllPrices settings (recalculateAllPrices settings prev)
  = recalculateAllPrices settings prev.
Proof.
  unfold recalculateAllPrices.
  apply map_idem. intros store. simpl.
  rewrite (map_idem _ _ (recalculateInventoryItem_idem settings)).
  rewrite (map_idem _ _ (recalculateOrderItem_idem settings)).
  reflexivity.
Qed.

(** ** The order-side shipping model *)

Lemma calculateConvertedWithShipping_rate_ext (c r1 r2 : Q) :
  r1 == r2 ->
  calculateConvertedWithShipping c r1 None = calculateConvertedWithShipping c r2 None.
Proof.
  intros H. unfold calculateConvertedWithShipping, js_mul.
  assert (E : c * r1 == c * r2) by (rewrite H; reflexivity).
  now rewrite (round64_ext _ _ E).
Qed.

Lemma newOrderItem_rate_only (s1 s2 : Settings.t) newId now item createdAt :
  Settings.exchangeRate s1 == Settings.exchangeRate s2 ->
  newOrderItem s1 newId now item createdAt = newOrderItem s2 newId now item createdAt.
Proof.
  intros H. unfold newOrderItem.
  now rewrite (calculateConvertedWithShipping_rate_ext _ _ _ H).
Qed.

Lemma updatedOrder_rate_only (s1 s2 : Settings.t) updates item :
  Settings.exchangeRate s1 == Settings.exchangeRate s2 ->
  updatedOrder s1 updates item = updatedOrder s2 updates item.
Proof.
  intros H. unfold updatedOrder.
  destruct (PartialOrderItem.costPriceCNY updates) as [c|]; [|reflexivity].
  now rewrite (calculateConvertedWithShipping_rate_ext _ _ _ H).
Qed.

Lemma recalculateOrderItem_rate_only (s1 s2 : Settings.t) order :
  Settings.exchangeRate s1 == Settings.exchangeRate s2 ->
  recalculateOrderItem s1 order = recalculateOrderItem s2 order.
Proof.
  intros H. unfold recalculateOrderItem.
  now rewrite (calculateConvertedWithShipping_rate_ext _ _ _ H).
Qed.

Lemma Forall2_same {A : Type} (R : A -> A -> Prop) (l : list A) :
  (forall x, R x x) -> Forall2 R l l.
Proof. intros H. induction l; constructor; auto. Qed.

(** C4, the claim as stated fails on the ceiling: the cost 4.4 (the double
    nearest to it, slightly above) times 22.5 plus 1000 is slightly above
    1099 in exact arithmetic, ceiling 1100; binary64 rounds the product to 99
    and the code returns 1099. *)
Lemma calculateConvertedWithShipping_not_exact_ceiling :
  is_double (double (44 # 10)) /\
  is_double (225 # 10) /\
  calculateConvertedWithShipping (double (44 # 10)) (225 # 10) None = 1099 /\
  Math_ceil (double (44 # 10) * (225 # 10) + 1000) = 1100.
Proof.
  repeat split; vm_compute; reflexivity.
Qed.

(** C4, amended.  With the shipping argument omitted the converted cost is
    the ceiling of costCNY * exchangeRate + 1000 as binary64 computes it,
    which is the exact ceiling when neither the product nor the sum rounds,
    so (10, 20) gives 1200.  addOrderItem appends to the active store an
    order carrying exactly that value for the draft's cost; updateOrderItem
    with a cost in the update gives it to the order it updates;
    recalculateAllPrices gives it to every order; and two settings with the
    same exchange rate, whatever their international and domestic shipping,
    make the three operations produce the same orders. *)
Theorem order_conversion_uses_flat_shipping :
  (forall c r : Q,
      calculateConvertedWithShipping c r None
      = Math_ceil (js_add (js_mul c r) 1000)) /\
  (forall c r : Q,
      is_double (c * r) -> is_double (c * r + 1000) ->
      calculateConvertedWithShipping c r None = Math_ceil (c * r + 1000)) /\
  calculateConvertedWithShipping 10 20 None = 1200 /\
  (forall s activeStoreId newId now item createdAt prev,
      exists o : OrderItem.t,
        OrderItem.costPriceCNY o = OrderDraft.costPriceCNY item /\
        OrderItem.convertedWithShipping o
        = flat_converted (OrderDraft.costPriceCNY item) (Settings.exchangeRate s) /\
        Forall2 (order_appended activeStoreId o) prev
                (addOrderItem s activeStoreId newId now item createdAt prev)) /\
  (forall s activeStoreId itemId updates c prev,
      PartialOrderItem.costPriceCNY updates = Some c ->
      Forall2 (order_recosted s activeStoreId itemId c) prev
              (updateOrderItem s activeStoreId itemId updates prev)) /\
  (forall s prev,
      Forall2 (orders_swept s) prev (recalculateAllPrices s prev)) /\
  (forall s1 s2 : Settings.t,
      Settings.exchangeRate s1 == Settings.exchangeRate s2 ->
      (forall activeStoreId newId now item createdAt prev,
          addOrderItem s1 activeStoreId newId now item createdAt prev
          = addOrderItem s2 activeStoreId newId now item createdAt prev) /\
      (forall activeStoreId itemId updates prev,
          updateOrderItem s1 activeStoreId itemId updates prev
          = updateOrderItem s2 activeStoreId itemId updates prev) /\
      (forall prev,
          map Store.orders (recalculateAllPrices s1 prev)
          = map Store.orders (recalculateAllPrices s2 prev))).
Proof.
  split; [reflexivity|].
  split.
  { intros c r H1 H2. unfold calculateConvertedWithShipping, js_add, js_mul.
    apply Math_ceil_ext. unfold is_double in *.
    assert (E : round64 (c * r) + 1000 == c * r + 1000) by (rewrite H1; reflexivity).
    rewrite (round64_ext _ _ E). exact H2. }
  split; [vm_compute; reflexivity|].
  split.
  { intros s activeStoreId newId now item createdAt prev.
    exists (newOrderItem s newId now item createdAt).
    split; [reflexivity|]. split; [reflexivity|].
    unfold addOrderItem. apply Forall2_map_graph. intros st.
    unfold order_appended.
    destruct (isActive activeStoreId st) eqn:Ea; simpl; rewrite ?Ea; tauto. }
  split.
  { intros s activeStoreId itemId updates c prev Hc.
    unfold updateOrderItem. apply Forall2_map_graph. intros st.
    unfold order_recosted.
    destruct (isActive activeStoreId st) eqn:Ea; simpl.
    - do 3 (split; [reflexivity|]).
      apply Forall2_map_graph. intros o.
      destruct (js_string_eqb (OrderItem.id o) itemId); simpl; [|reflexivity].
      unfold updatedOrder. rewrite Hc. simpl. split; reflexivity.
    - do 3 (split; [reflexivity|]).
      apply Forall2_same. intros o. reflexivity. }
  split.
  { intros s prev. unfold recalculateAllPrices. apply Forall2_map_graph. intros st.
    unfold orders_swept. simpl. apply Forall2_map_graph. intros o.
    split; reflexivity. }
  intros s1 s2 Hr. split; [|split].
  - intros. unfold addOrderItem.
    now rewrite (newOrderItem_rate_only s1 s2 _ _ _ _ Hr).
  - intros. unfold updateOrderItem.
    apply map_ext. intros s.
    destruct (negb (isActive activeStoreId s)); [reflexivity|].
    f_equal. apply map_ext. intros item.
    destruct (negb (js_string_eqb (OrderItem.id item) itemId)); [reflexivity|].
    now apply updatedOrder_rate_only.
  - intros prev. unfold recalculateAllPrices. rewrite !map_map. simpl.
    apply map_ext. intros store.
    apply map_ext. intros order.
    now apply recalculateOrderItem_rate_only.
Qed.

(** Two settings with the same exchange rate and different shipping fees. *)
Lemma order_conversion_uses_flat_shipping_witness :
  calculateConvertedWithShipping 10 20 None = Math_ceil (10 * 20 + 1000) /\
  Forall2 (order_recosted defaultSettings (Some (lit "s1")) (lit "o1") 10)
          [sampleStore]
          (updateOrderItem defaultSettings (Some (lit "s1")) (lit "o1")
             (PartialOrderItem.mk None None None None None (Some 10)
                                  None None None None None)
             [sampleStore]) /\
  addOrderItem defaultSettings (Some (lit "s1")) (lit "o2") (lit "2026-02-01")
               sampleOrderDraft None [sampleStore]
  = addOrderItem
      (updateSettings (SettingsPanel.single SettingsPanel.internationalShipping 5000)
                      defaultSettings)
      (Some (lit "s1")) (lit "o2") (lit "2026-02-01") sampleOrderDraft None [sampleStore].
Proof.
  destruct order_conversion_uses_flat_shipping as (_ & Hex & _ & _ & Hu & _ & Hs).
  split; [|split].
  - apply Hex; vm_compute; reflexivity.
  - apply Hu. reflexivity.
  - apply Hs. reflexivity.
Defined.

(** ** Creating an inventory item *)

Lemma js_gt_true (a b : Q) : js_gt a b = true <-> b < a.
Proof.
  unfold js_gt. rewrite negb_true_iff.
  split.
  - intros H. apply Qnot_le_lt. intros Hle.
    apply Qle_bool_iff in Hle. congruence.
  - intros H. destruct (Qle_bool a b) eqn:E; [|reflexivity].
    apply Qle_bool_iff in E. exfalso. now apply (Qlt_not_le _ _ H).
Qed.

Lemma truthy_false (s : js_string) : truthy s = false <-> s = [].
Proof. destruct s; simpl; split; congruence. Qed.

Lemma handleSubmit_rejects {W : Type} (onAddItem : InventoryDraft.t -> W -> W)
    (d : AddInventoryDialog.state) (w : W) :
  trim (InventoryDraft.productName (AddInventoryDialog.newItem d)) = [] \/
  InventoryDraft.costPriceCNY (AddInventoryDialog.newItem d) <= 0 ->
  AddInventoryDialog.handleSubmit onAddItem d w = (w, d).
Proof.
  intros H. unfold AddInventoryDialog.handleSubmit.
  destruct H as [H | H].
  - rewrite H. reflexivity.
  - destruct (js_gt _ 0) eqn:E.
    + apply js_gt_true in E. exfalso. now apply (Qlt_not_le _ _ E).
    + now rewrite andb_false_r.
Qed.

Lemma handleSubmit_accepts {W : Type} (onAddItem : InventoryDraft.t -> W -> W)
    (d : AddInventoryDialog.state) (w : W) :
  trim (InventoryDraft.productName (AddInventoryDialog.newItem d)) <> [] ->
  0 < InventoryDraft.costPriceCNY (AddInventoryDialog.newItem d) ->
  AddInventoryDialog.handleSubmit onAddItem d w
  = (onAddItem (AddInventoryDialog.newItem d) w,
     {| AddInventoryDialog.newItem := AddInventoryDialog.emptyItem;
        AddInventoryDialog.open := false |}).
Proof.
  intros Hn Hc. unfold AddInventoryDialog.handleSubmit.
  apply js_gt_true in Hc. rewrite Hc.
  destruct (truthy _) eqn:E; [reflexivity|].
  apply truthy_false in E. contradiction.
Qed.

Lemma addInventoryItem_item_added settings activeStoreId newId item prev :
  Forall2 (item_added activeStoreId (newInventoryItem settings newId item))
          prev (addInventoryItem settings activeStoreId newId item prev).
Proof.
  unfold addInventoryItem. apply Forall2_map_graph. intros s.
  unfold item_added.
  destruct (isActive activeStoreId s) eqn:E; simpl; rewrite ?E; tauto.
Qed.

Lemma addInventoryItem_count settings activeStoreId newId item prev :
  inventory_count (addInventoryItem settings activeStoreId newId item prev)
  = (inventory_count prev + active_count activeStoreId prev)%nat.
Proof.
  unfold inventory_count, active_count, addInventoryItem.
  induction prev as [|s prev IH]; simpl; [reflexivity|].
  rewrite IH.
  destruct (isActive activeStoreId s); simpl; [|lia].
  rewrite length_app. simpl. lia.
Qed.

(** C8, the claim as stated fails: a draft with quantity -5 (a name and a
    positive cost) is accepted, and the item is stored with that
    quantity. *)
Lemma submitInventoryItem_accepts_negative_quantity :
  InventoryDraft.quantity negativeQuantityDraft <= 0 /\
  submitInventoryItem defaultSettings (Some (lit "s1")) (lit "i2")
    {| AddInventoryDialog.newItem := negativeQuantityDraft;
       AddInventoryDialog.open := true |}
    [sampleStore]
  = ([ {| Store.id := lit "s1";
          Store.name := lit "Shop";
          Store.inventory :=
            [ sampleInventoryItem;
              {| InventoryItem.id := lit "i2";
                 InventoryItem.photo := [];
                 InventoryItem.productName := lit "Shirt";
                 InventoryItem.color := [];
                 InventoryItem.size := [];
                 InventoryItem.quantity := - (5);
                 InventoryItem.costPriceCNY := 50;
                 InventoryItem.sellingPriceJPY := 11731 |} ];
          Store.orders := [sampleOrder] |} ],
      {| AddInventoryDialog.newItem := AddInventoryDialog.emptyItem;
         AddInventoryDialog.open := false |}).
Proof.
  split.
  - discriminate.
  - vm_compute. reflexivity.
Qed.

(** C8, amended.  A submission whose product name is empty after trimming,
    or whose cost is not positive, is rejected: the stores and the dialog
    are returned as they were.  The quantity is not checked.  A submission
    that passes the two checks resets the dialog and appends one and the
    same new item, with the generated id, the fields of the draft and the
    selling price of its cost, to the inventory of every store whose id is
    the active store id and changes nothing else; when exactly one store
    has that id, exactly one item is added. *)
Theorem submitInventoryItem_validation
    (settings : Settings.t) (activeStoreId : option js_string) (newId : js_string)
    (d : AddInventoryDialog.state) (stores : list Store.t) :
  (trim (InventoryDraft.productName (AddInventoryDialog.newItem d)) = [] \/
   InventoryDraft.costPriceCNY (AddInventoryDialog.newItem d) <= 0 ->
   submitInventoryItem settings activeStoreId newId d stores = (stores, d)) /\
  (trim (InventoryDraft.productName (AddInventoryDialog.newItem d)) <> [] ->
   0 < InventoryDraft.costPriceCNY (AddInventoryDialog.newItem d) ->
   Forall2 (item_added activeStoreId
              {| InventoryItem.id := newId;
                 InventoryItem.photo :=
                   InventoryDraft.photo (AddInventoryDialog.newItem d);
                 InventoryItem.productName :=
                   InventoryDraft.productName (AddInventoryDialog.newItem d);
                 InventoryItem.color :=
                   InventoryDraft.color (AddInventoryDialog.newItem d);
                 InventoryItem.size :=
                   InventoryDraft.size (AddInventoryDialog.newItem d);
                 InventoryItem.quantity :=
                   InventoryDraft.quantity (AddInventoryDialog.newItem d);
                 InventoryItem.costPriceCNY :=
                   InventoryDraft.costPriceCNY (AddInventoryDialog.newItem d);
                 InventoryItem.sellingPriceJPY :=
                   calculateSellingPrice
                     (InventoryDraft.costPriceCNY (AddInventoryDialog.newItem d))
                     settings |})
           stores
           (fst (submitInventoryItem settings activeStoreId newId d stores)) /\
   snd (submitInventoryItem settings activeStoreId newId d stores)
   = {| AddInventoryDialog.newItem := AddInventoryDialog.emptyItem;
        AddInventoryDialog.open := false |} /\
   inventory_count (fst (submitInventoryItem settings activeStoreId newId d stores))
   = (inventory_count stores + active_count activeStoreId stores)%nat /\
   (active_count activeStoreId stores = 1%nat ->
    inventory_count (fst (submitInventoryItem settings activeStoreId newId d stores))
    = S (inventory_count stores))).
Proof.
  unfold submitInventoryItem. split.
  - apply handleSubmit_rejects.
  - intros Hn Hc. rewrite (handleSubmit_accepts _ _ _ Hn Hc). simpl.
    split; [exact (addInventoryItem_item_added _ _ _ _ _)|].
    split; [reflexivity|].
    split; [apply addInventoryItem_count|].
    intros H1. rewrite addInventoryItem_count, H1. lia.
Qed.

Lemma submitInventoryItem_validation_witness :
  submitInventoryItem defaultSettings (Some (lit "s1")) (lit "i2")
    {| AddInventoryDialog.newItem := AddInventoryDialog.emptyItem;
       AddInventoryDialog.open := true |} [sampleStore]
  = ([sampleStore],
     {| AddInventoryDialog.newItem := AddInventoryDialog.emptyItem;
        AddInventoryDialog.open := true |}) /\
  inventory_count
    (fst (submitInventoryItem defaultSettings (Some (lit "s1")) (lit "i2")
            {| AddInventoryDialog.newItem := negativeQuantityDraft;
               AddInventoryDialog.open := true |} [sampleStore]))
  = S (inventory_count [sampleStore]).
Proof.
  split.
  - apply (proj1 (submitInventoryItem_validation defaultSettings (Some (lit "s1"))
                    (lit "i2") _ [sampleStore])).
    left. reflexivity.
  - apply (proj2 (submitInventoryItem_validation defaultSettings (Some (lit "s1"))
                    (lit "i2")
                    {| AddInventoryDialog.newItem := negativeQuantityDraft;
                       AddInventoryDialog.open := true |} [sampleStore])).
    + discriminate.
    + reflexivity.
    + reflexivity.
Defined.

(** ** Updating the settings *)

Lemma spread_holds {A : Type} (P : A -> Prop) (old : A) (upd : option A) :
  P old -> option_holds P upd -> P (spread old upd).
Proof. destruct upd; simpl; auto. Qed.

(** C9, the claim as stated fails: setting the fee rate to 1 (100 in the
    percentage field) or the international shipping to -500 is stored as
    given, from valid settings to invalid ones. *)
Lemma updateSettings_stores_invalid_values :
  valid_settings defaultSettings /\
  SettingsPanel.handleChange updateSettings SettingsPanel.platformFeeRate 1
                             defaultSettings
  = {| Settings.exchangeRate := 23;
       Settings.internationalShipping := 1000;
       Settings.domesticShipping := 1000;
       Settings.targetProfit := 6000;
       Settings.platformFeeRate := 1 |} /\
  ~ valid_settings
      (SettingsPanel.handleChange updateSettings SettingsPanel.platformFeeRate 1
                                  defaultSettings) /\
  SettingsPanel.handleChange updateSettings SettingsPanel.internationalShipping
                             (- (500)) defaultSettings
  = {| Settings.exchangeRate := 23;
       Settings.internationalShipping := - (500);
       Settings.domesticShipping := 1000;
       Settings.targetProfit := 6000;
       Settings.platformFeeRate := double (22 # 100) |} /\
  ~ valid_settings
      (SettingsPanel.handleChange updateSettings SettingsPanel.internationalShipping
                                  (- (500)) defaultSettings).
Proof.
  split; [|split; [|split; [|split]]].
  - repeat split; discriminate.
  - reflexivity.
  - intros [[_ H] _]. revert H. vm_compute. discriminate.
  - reflexivity.
  - intros [_ [H _]]. revert H. vm_compute. intros H. now apply H.
Qed.

(** C9, amended.  The settings update validates nothing: every field the
    update supplies replaces the stored one and every field it omits is
    kept.  Hence valid settings stay valid when the supplied values are
    themselves in range (fee rate in [0,1), non-negative shipping and
    profit), and the result is invalid as soon as one supplied value is out
    of range. *)
Theorem updateSettings_merges (newSettings : PartialSettings.t) (prev : Settings.t) :
  (Settings.exchangeRate (updateSettings newSettings prev)
   = spread (Settings.exchangeRate prev) (PartialSettings.exchangeRate newSettings) /\
   Settings.internationalShipping (updateSettings newSettings prev)
   = spread (Settings.internationalShipping prev)
            (PartialSettings.internationalShipping newSettings) /\
   Settings.domesticShipping (updateSettings newSettings prev)
   = spread (Settings.domesticShipping prev)
            (PartialSettings.domesticShipping newSettings) /\
   Settings.targetProfit (updateSettings newSettings prev)
   = spread (Settings.targetProfit prev) (PartialSettings.targetProfit newSettings) /\
   Settings.platformFeeRate (updateSettings newSettings prev)
   = spread (Settings.platformFeeRate prev)
            (PartialSettings.platformFeeRate newSettings)) /\
  (valid_settings prev -> valid_update newSettings ->
   valid_settings (updateSettings newSettings prev)) /\
  (valid_settings (updateSettings newSettings prev) -> valid_update newSettings).
Proof.
  split; [repeat split|]. split.
  - intros [Hfee (Hi & Hd & Ht)] (Ui & Ud & Ut & Uf).
    unfold valid_settings, valid_fee, nonneg_addons, updateSettings; simpl.
    split; [|split; [|split]].
    + apply (spread_holds (fun v => 0 <= v /\ v < 1)); assumption.
    + apply (spread_holds (fun v => 0 <= v)); assumption.
    + apply (spread_holds (fun v => 0 <= v)); assumption.
    + apply (spread_holds (fun v => 0 <= v)); assumption.
  - unfold valid_settings, valid_fee, nonneg_addons, valid_update, updateSettings; simpl.
    intros [Hfee (Hi & Hd & Ht)].
    destruct newSettings as [r i d t f]; simpl in *.
    repeat split.
    + destruct i; simpl in *; auto.
    + destruct d; simpl in *; auto.
    + destruct t; simpl in *; auto.
    + destruct f; simpl in *; auto.
Qed.

Lemma updateSettings_merges_witness :
  valid_settings
    (updateSettings (SettingsPanel.single SettingsPanel.platformFeeRate (1 # 10))
                    defaultSettings) /\
  valid_update (SettingsPanel.single SettingsPanel.platformFeeRate (1 # 10)).
Proof.
  destruct (updateSettings_merges
              (SettingsPanel.single SettingsPanel.platformFeeRate (1 # 10))
              defaultSettings) as (_ & Hpres & Hconv).
  assert (Hv : valid_settings
                 (updateSettings
                    (SettingsPanel.single SettingsPanel.platformFeeRate (1 # 10))
                    defaultSettings)).
  { apply Hpres.
    - repeat split; discriminate.
    - simpl. repeat split; discriminate. }
  split; [exact Hv | exact (Hconv Hv)].
Defined.

(** ** The order invariant *)

Lemma Forall_map_preserved {A : Type} (P : A -> Prop) (f : A -> A) (l : list A) :
  (forall x, P x -> P (f x)) -> Forall P l -> Forall P (map f l).
Proof.
  intros Hf H. induction H as [|x l Hx _ IH]; simpl; constructor; auto.
Qed.

Lemma Forall_map_established {A : Type} (P : A -> Prop) (f : A -> A) (l : list A) :
  (forall x, P (f x)) -> Forall P (map f l).
Proof.
  intros Hf. induction l as [|x l IH]; simpl; constructor; auto.
Qed.

Lemma newOrderItem_invariant s newId now item createdAt :
  order_invariant (newOrderItem s newId now item createdAt).
Proof. unfold order_invariant, newOrderItem, calculateProfit. simpl. reflexivity. Qed.

Lemma recalculateOrderItem_invariant s order :
  order_invariant (recalculateOrderItem s order).
Proof. unfold order_invariant, recalculateOrderItem, calculateProfit. simpl. reflexivity. Qed.

Lemma updatedOrder_invariant s updates item :
  attribute_only updates ->
  order_invariant item ->
  order_invariant (updatedOrder s updates item).
Proof.
  intros (_ & Hconv & Hprofit) Hinv.
  unfold order_invariant, updatedOrder, calculateProfit in *.
  rewrite Hconv, Hprofit.
  destruct (PartialOrderItem.costPriceCNY updates) as [c|],
           (PartialOrderItem.actualPayment updates) as [a|];
    simpl; try reflexivity.
  exact Hinv.
Qed.

Lemma addOrderItem_invariant s activeStoreId newId now item createdAt prev :
  stores_invariant prev ->
  stores_invariant (addOrderItem s activeStoreId newId now item createdAt prev).
Proof.
  unfold stores_invariant, addOrderItem.
  apply Forall_map_preserved. intros st Hst.
  destruct (isActive activeStoreId st); simpl; [|exact Hst].
  apply Forall_app. split; [exact Hst|].
  constructor; [apply newOrderItem_invariant | constructor].
Qed.

Lemma recalculateAllPrices_invariant s prev :
  stores_invariant (recalculateAllPrices s prev).
Proof.
  unfold stores_invariant, recalculateAllPrices.
  apply Forall_map_established. intros st. simpl.
  apply Forall_map_established, recalculateOrderItem_invariant.
Qed.

Lemma updateOrderItem_invariant s activeStoreId itemId updates prev :
  attribute_only updates ->
  stores_invariant prev ->
  stores_invariant (updateOrderItem s activeStoreId itemId updates prev).
Proof.
  intros Hattr. unfold stores_invariant, updateOrderItem.
  apply Forall_map_preserved. intros st Hst.
  destruct (negb (isActive activeStoreId st)); simpl; [exact Hst|].
  revert Hst. apply Forall_map_preserved. intros item Hitem.
  destruct (negb (js_string_eqb (OrderItem.id item) itemId)); [exact Hitem|].
  now apply updatedOrder_invariant.
Qed.

(** C10.  profit = actualPayment - convertedWithShipping holds for the order
    addOrderItem creates and is kept for the others, holds for every order
    after the sweep, and is kept by updateOrderItem when the update carries
    attribute fields only; an update that sets profit alone, leaving cost
    and payment out, turns a store that satisfies the invariant into one
    that does not. *)
Theorem order_invariant_maintained :
  (forall s newId now item createdAt,
      order_invariant (newOrderItem s newId now item createdAt)) /\
  (forall s activeStoreId newId now item createdAt prev,
      stores_invariant prev ->
      stores_invariant (addOrderItem s activeStoreId newId now item createdAt prev)) /\
  (forall s prev, stores_invariant (recalculateAllPrices s prev)) /\
  (forall s activeStoreId itemId updates prev,
      attribute_only updates ->
      stores_invariant prev ->
      stores_invariant (updateOrderItem s activeStoreId itemId updates prev)) /\
  (exists s activeStoreId itemId updates prev,
      stores_invariant prev /\
      PartialOrderItem.costPriceCNY updates = None /\
      PartialOrderItem.actualPayment updates = None /\
      ~ stores_invariant (updateOrderItem s activeStoreId itemId updates prev)).
Proof.
  split; [exact newOrderItem_invariant|].
  split; [exact addOrderItem_invariant|].
  split; [exact recalculateAllPrices_invariant|].
  split; [exact updateOrderItem_invariant|].
  exists defaultSettings, (Some (lit "s1")), (lit "o1"),
         (PartialOrderItem.mk None None None None None None None None (Some 0) None None),
         [sampleStore].
  split; [|split; [reflexivity|split; [reflexivity|]]].
  - repeat constructor.
  - intros H. inversion H as [|? ? Hst _]; subst.
    inversion Hst as [|? ? Ho _]; subst.
    revert Ho. vm_compute. discriminate.
Qed.

Lemma order_invariant_maintained_witness :
  stores_invariant
    (addOrderItem defaultSettings (Some (lit "s1")) (lit "o2") (lit "2026-02-01")
                  sampleOrderDraft None [sampleStore]) /\
  stores_invariant
    (updateOrderItem defaultSettings (Some (lit "s1")) (lit "o1")
       (PartialOrderItem.mk None None None None None None None (Some 2500) None None None)
       [sampleStore]).
Proof.
  assert (H0 : stores_invariant [sampleStore]) by (repeat constructor).
  destruct order_invariant_maintained as (_ & Hadd & _ & Hupd & _).
  split.
  - apply Hadd. exact H0.
  - apply Hupd; [repeat split | exact H0].
Defined.

(** * Further properties of the store operations *)

Lemma js_string_eqb_true (a b : js_string) : js_string_eqb a b = true <-> a = b.
Proof.
  unfold js_string_eqb. destruct (list_eq_dec N.eq_dec a b); split; congruence.
Qed.

Lemma js_string_eqb_false (a b : js_string) : js_string_eqb a b = false <-> a <> b.
Proof.
  unfold js_string_eqb. destruct (list_eq_dec N.eq_dec a b); split; congruence.
Qed.

Lemma js_string_eqb_refl (a : js_string) : js_string_eqb a a = true.
Proof. now apply js_string_eqb_true. Qed.

Lemma store_eta (s : Store.t) :
  {| Store.id := Store.id s; Store.name := Store.name s;
     Store.inventory := Store.inventory s; Store.orders := Store.orders s |} = s.
Proof. now destruct s. Qed.

Lemma map_id_on {A : Type} (f : A -> A) (l : list A) :
  Forall (fun x => f x = x) l -> map f l = l.
Proof.
  intros H. induction H as [|x l Hx _ IH]; simpl; [reflexivity|].
  now rewrite Hx, IH.
Qed.

(** ** Prices stay consistent with the settings in force *)

Lemma updatedInventoryItem_priced settings updates item :
  PartialInventoryItem.sellingPriceJPY updates = None \/
  PartialInventoryItem.costPriceCNY updates <> None ->
  item_priced settings item ->
  item_priced settings (updatedInventoryItem settings updates item).
Proof.
  intros Hu Hitem. unfold item_priced, updatedInventoryItem in *. simpl.
  destruct (PartialInventoryItem.costPriceCNY updates) as [c|]; [reflexivity|].
  destruct Hu as [Hu | Hu]; [|congruence].
  rewrite Hu. simpl. exact Hitem.
Qed.

(** X1.  An inventory update that carries a new cost, or that carries no
    selling price, keeps every stored selling price equal to the formula on
    the item's cost under the settings in force. *)
Theorem updateInventoryItem_keeps_prices settings activeStoreId itemId updates prev :
  PartialInventoryItem.sellingPriceJPY updates = None \/
  PartialInventoryItem.costPriceCNY updates <> None ->
  inventory_priced settings prev ->
  inventory_priced settings
    (updateInventoryItem settings activeStoreId itemId updates prev).
Proof.
  intros Hu. unfold inventory_priced, updateInventoryItem.
  apply Forall_map_preserved. intros s Hs.
  destruct (negb (isActive activeStoreId s)); simpl; [exact Hs|].
  revert Hs. apply Forall_map_preserved. intros item Hitem.
  destruct (negb (js_string_eqb (InventoryItem.id item) itemId)); [exact Hitem|].
  now apply updatedInventoryItem_priced.
Qed.

Lemma updateInventoryItem_keeps_prices_witness :
  inventory_priced defaultSettings
    (updateInventoryItem defaultSettings (Some (lit "s1")) (lit "i1")
       (PartialInventoryItem.mk None None None None None None (Some 120) (Some 1))
       [sampleStore]).
Proof.
  apply updateInventoryItem_keeps_prices.
  - right. discriminate.
  - repeat constructor.
Defined.

Lemma Forall_filter_kept {A : Type} (P : A -> Prop) (f : A -> bool) (l : list A) :
  Forall P l -> Forall P (filter f l).
Proof.
  intros H. induction H as [|x l Hx _ IH]; simpl; [constructor|].
  destruct (f x); [constructor|]; assumption.
Qed.

(** X2.  The sweep makes every stored selling price equal to the formula
    under its settings, and adding or deleting an inventory item, or adding,
    updating or deleting an order, under the same settings keeps it so. *)
Theorem inventory_priced_kept (settings : Settings.t) (activeStoreId : option js_string)
    (prev : list Store.t) :
  inventory_priced settings (recalculateAllPrices settings prev) /\
  (inventory_priced settings prev ->
   (forall newId item,
       inventory_priced settings (addInventoryItem settings activeStoreId newId item prev)) /\
   (forall itemId,
       inventory_priced settings (deleteInventoryItem activeStoreId itemId prev)) /\
   (forall newId now item createdAt,
       inventory_priced settings
         (addOrderItem settings activeStoreId newId now item createdAt prev)) /\
   (forall itemId updates,
       inventory_priced settings
         (updateOrderItem settings activeStoreId itemId updates prev)) /\
   (forall itemId,
       inventory_priced settings (deleteOrderItem activeStoreId itemId prev))).
Proof.
  split.
  - unfold inventory_priced, recalculateAllPrices.
    apply Forall_map_established. intros s. simpl.
    apply Forall_map_established. intros item. reflexivity.
  - intros H. unfold inventory_priced in *. repeat split; intros.
    + unfold addInventoryItem. revert H. apply Forall_map_preserved. intros s Hs.
      destruct (isActive activeStoreId s); simpl; [|exact Hs].
      apply Forall_app. split; [exact Hs|].
      constructor; [reflexivity | constructor].
    + unfold deleteInventoryItem. revert H. apply Forall_map_preserved. intros s Hs.
      destruct (isActive activeStoreId s); simpl; [|exact Hs].
      now apply Forall_filter_kept.
    + unfold addOrderItem. revert H. apply Forall_map_preserved. intros s Hs.
      destruct (isActive activeStoreId s); simpl; exact Hs.
    + unfold updateOrderItem. revert H. apply Forall_map_preserved. intros s Hs.
      destruct (negb (isActive activeStoreId s)); simpl; exact Hs.
    + unfold deleteOrderItem. revert H. apply Forall_map_preserved. intros s Hs.
      destruct (isActive activeStoreId s); simpl; exact Hs.
Qed.

Lemma inventory_priced_kept_witness :
  inventory_priced defaultSettings
    (addInventoryItem defaultSettings (Some (lit "s1")) (lit "i2")
                      negativeQuantityDraft [sampleStore]).
Proof.
  destruct (inventory_priced_kept defaultSettings (Some (lit "s1")) [sampleStore])
    as [_ H].
  apply H. repeat constructor.
Defined.

(** ** What an update leaves alone *)

(** X3.  An order update returns the same stores in the same order with
    their ids, names and inventories; each order is either left as it was
    or, in an active store and with the given id, replaced by its updated
    version. *)
Theorem updateOrderItem_frame settings activeStoreId itemId updates prev :
  Forall2 (order_update_frame settings activeStoreId itemId updates)
          prev (updateOrderItem settings activeStoreId itemId updates prev).
Proof.
  unfold updateOrderItem. apply Forall2_map_graph. intros s.
  unfold order_update_frame.
  destruct (isActive activeStoreId s) eqn:Ea; simpl.
  - repeat split. apply Forall2_map_graph. intros o.
    destruct (js_string_eqb (OrderItem.id o) itemId) eqn:Ei; simpl.
    + right. apply js_string_eqb_true in Ei. auto.
    + now left.
  - repeat split. clear. induction (Store.orders s); constructor; auto.
Qed.

(** X4.  An inventory update returns the same stores in the same order with
    their ids, names and orders; each item is either left as it was or, in
    an active store and with the given id, replaced by its updated
    version. *)
Theorem updateInventoryItem_frame settings activeStoreId itemId updates prev :
  Forall2 (inventory_update_frame settings activeStoreId itemId updates)
          prev (updateInventoryItem settings activeStoreId itemId updates prev).
Proof.
  unfold updateInventoryItem. apply Forall2_map_graph. intros s.
  unfold inventory_update_frame.
  destruct (isActive activeStoreId s) eqn:Ea; simpl.
  - repeat split. apply Forall2_map_graph. intros i.
    destruct (js_string_eqb (InventoryItem.id i) itemId) eqn:Ei; simpl.
    + right. apply js_string_eqb_true in Ei. auto.
    + now left.
  - repeat split. clear. induction (Store.inventory s); constructor; auto.
Qed.

Lemma updatedOrder_empty settings (o : OrderItem.t) :
  updatedOrder settings emptyOrderUpdate o = o.
Proof. now destruct o. Qed.

Lemma updatedInventoryItem_empty settings (i : InventoryItem.t) :
  updatedInventoryItem settings PartialInventoryItem.empty i = i.
Proof. now destruct i. Qed.

(** X5.  An order update whose id no order of an active store carries, or
    that carries no field at all, returns the stores exactly as they
    were. *)
Theorem updateOrderItem_noop settings activeStoreId itemId updates prev :
  (fresh_order_id activeStoreId itemId prev ->
   updateOrderItem settings activeStoreId itemId updates prev = prev) /\
  updateOrderItem settings activeStoreId itemId emptyOrderUpdate prev = prev.
Proof.
  unfold updateOrderItem. split.
  - intros H. apply map_id_on. unfold fresh_order_id in H.
    revert H. apply Forall_impl. intros s Hs.
    destruct (isActive activeStoreId s); simpl; [|reflexivity].
    rewrite map_id_on; [apply store_eta|].
    specialize (Hs eq_refl). revert Hs. apply Forall_impl. intros o Ho.
    apply js_string_eqb_false in Ho. now rewrite Ho.
  - apply map_id_on. apply Forall_forall. intros s _.
    destruct (negb (isActive activeStoreId s)); [reflexivity|].
    rewrite map_id_on; [apply store_eta|].
    apply Forall_forall. intros o _.
    destruct (negb (js_string_eqb (OrderItem.id o) itemId)); [reflexivity|].
    apply updatedOrder_empty.
Qed.

Lemma updateOrderItem_noop_witness :
  updateOrderItem defaultSettings (Some (lit "s1")) (lit "o9")
    (PartialOrderItem.mk None None None None None (Some 10) None None None None None)
    [sampleStore]
  = [sampleStore].
Proof.
  apply (proj1 (updateOrderItem_noop defaultSettings (Some (lit "s1")) (lit "o9") _
                  [sampleStore])).
  repeat constructor. discriminate.
Defined.

(** X6.  An inventory update whose id no item of an active store carries,
    or that carries no field at all, returns the stores exactly as they
    were. *)
Theorem updateInventoryItem_noop settings activeStoreId itemId updates prev :
  (fresh_inventory_id activeStoreId itemId prev ->
   updateInventoryItem settings activeStoreId itemId updates prev = prev) /\
  updateInventoryItem settings activeStoreId itemId PartialInventoryItem.empty prev
  = prev.
Proof.
  unfold updateInventoryItem. split.
  - intros H. apply map_id_on. unfold fresh_inventory_id in H.
    revert H. apply Forall_impl. intros s Hs.
    destruct (isActive activeStoreId s); simpl; [|reflexivity].
    rewrite map_id_on; [apply store_eta|].
    specialize (Hs eq_refl). revert Hs. apply Forall_impl. intros i Hi.
    apply js_string_eqb_false in Hi. now rewrite Hi.
  - apply map_id_on. apply Forall_forall. intros s _.
    destruct (negb (isActive activeStoreId s)); [reflexivity|].
    rewrite map_id_on; [apply store_eta|].
    apply Forall_forall. intros i _.
    destruct (negb (js_string_eqb (InventoryItem.id i) itemId)); [reflexivity|].
    apply updatedInventoryItem_empty.
Qed.

Lemma updateInventoryItem_noop_witness :
  updateInventoryItem defaultSettings (Some (lit "s1")) (lit "i9")
    (PartialInventoryItem.mk None None None None None None (Some 10) None)
    [sampleStore]
  = [sampleStore].
Proof.
  apply (proj1 (updateInventoryItem_noop defaultSettings (Some (lit "s1")) (lit "i9") _
                  [sampleStore])).
  repeat constructor. discriminate.
Defined.

(** ** Deleting items *)

Lemma filter_id_on {A : Type} (f : A -> bool) (l : list A) :
  Forall (fun x => f x = true) l -> filter f l = l.
Proof.
  intros H. induction H as [|x l Hx _ IH]; simpl; [reflexivity|].
  now rewrite Hx, IH.
Qed.

Lemma filter_idem {A : Type} (f : A -> bool) (l : list A) :
  filter f (filter f l) = filter f l.
Proof.
  apply filter_id_on. apply Forall_forall. intros x Hx.
  now apply filter_In in Hx.
Qed.

(** X7.  Deleting an inventory item keeps every store's id, name and
    orders; in an active store exactly the items with the given id
    disappear, elsewhere nothing does.  Deleting twice is deleting once, and
    deleting an id that no item of an active store carries changes
    nothing. *)
Theorem deleteInventoryItem_spec activeStoreId itemId prev :
  Forall2 (fun s s' =>
             Store.id s' = Store.id s /\ Store.name s' = Store.name s /\
             Store.orders s' = Store.orders s /\
             forall i, In i (Store.inventory s') <->
                       In i (Store.inventory s) /\
                       (isActive activeStoreId s = true -> InventoryItem.id i <> itemId))
          prev (deleteInventoryItem activeStoreId itemId prev) /\
  deleteInventoryItem activeStoreId itemId (deleteInventoryItem activeStoreId itemId prev)
  = deleteInventoryItem activeStoreId itemId prev /\
  (fresh_inventory_id activeStoreId itemId prev ->
   deleteInventoryItem activeStoreId itemId prev = prev).
Proof.
  unfold deleteInventoryItem. split; [|split].
  - apply Forall2_map_graph. intros s.
    destruct (isActive activeStoreId s) eqn:Ea; simpl.
    + do 3 (split; [reflexivity|]). intros x. rewrite filter_In.
      rewrite negb_true_iff, js_string_eqb_false. tauto.
    + do 3 (split; [reflexivity|]). intros x. split; [|tauto].
      intros Hx. split; [exact Hx | discriminate].
  - rewrite map_map. apply map_ext. intros s.
    destruct (isActive activeStoreId s) eqn:Ea; [|now rewrite Ea].
    unfold isActive in *; simpl; rewrite Ea.
    now rewrite filter_idem.
  - intros H. apply map_id_on. revert H. apply Forall_impl. intros s Hs.
    destruct (isActive activeStoreId s); [|reflexivity].
    rewrite filter_id_on; [apply store_eta|].
    specialize (Hs eq_refl). revert Hs. apply Forall_impl. intros i Hi.
    apply negb_true_iff, js_string_eqb_false. exact Hi.
Qed.

Lemma deleteInventoryItem_spec_witness :
  deleteInventoryItem (Some (lit "s1")) (lit "i9") [sampleStore] = [sampleStore].
Proof.
  apply (proj2 (proj2 (deleteInventoryItem_spec (Some (lit "s1")) (lit "i9")
                         [sampleStore]))).
  repeat constructor. discriminate.
Defined.

(** X8.  Deleting an order keeps every store's id, name and inventory; in
    an active store exactly the orders with the given id disappear,
    elsewhere nothing does.  Deleting twice is deleting once, and deleting
    an id that no order of an active store carries changes nothing. *)
Theorem deleteOrderItem_spec activeStoreId itemId prev :
  Forall2 (fun s s' =>
             Store.id s' = Store.id s /\ Store.name s' = Store.name s /\
             Store.inventory s' = Store.inventory s /\
             forall o, In o (Store.orders s') <->
                       In o (Store.orders s) /\
                       (isActive activeStoreId s = true -> OrderItem.id o <> itemId))
          prev (deleteOrderItem activeStoreId itemId prev) /\
  deleteOrderItem activeStoreId itemId (deleteOrderItem activeStoreId itemId prev)
  = deleteOrderItem activeStoreId itemId prev /\
  (fresh_order_id activeStoreId itemId prev ->
   deleteOrderItem activeStoreId itemId prev = prev).
Proof.
  unfold deleteOrderItem. split; [|split].
  - apply Forall2_map_graph. intros s.
    destruct (isActive activeStoreId s) eqn:Ea; simpl.
    + do 3 (split; [reflexivity|]). intros x. rewrite filter_In.
      rewrite negb_true_iff, js_string_eqb_false. tauto.
    + do 3 (split; [reflexivity|]). intros x. split; [|tauto].
      intros Hx. split; [exact Hx | discriminate].
  - rewrite map_map. apply map_ext. intros s.
    destruct (isActive activeStoreId s) eqn:Ea; [|now rewrite Ea].
    unfold isActive in *; simpl; rewrite Ea.
    now rewrite filter_idem.
  - intros H. apply map_id_on. revert H. apply Forall_impl. intros s Hs.
    destruct (isActive activeStoreId s); [|reflexivity].
    rewrite filter_id_on; [apply store_eta|].
    specialize (Hs eq_refl). revert Hs. apply Forall_impl. intros o Ho.
    apply negb_true_iff, js_string_eqb_false. exact Ho.
Qed.

Lemma deleteOrderItem_spec_witness :
  deleteOrderItem (Some (lit "s1")) (lit "o9") [sampleStore] = [sampleStore].
Proof.
  apply (proj2 (proj2 (deleteOrderItem_spec (Some (lit "s1")) (lit "o9")
                         [sampleStore]))).
  repeat constructor. discriminate.
Defined.

Lemma filter_app_fresh {A : Type} (f : A -> bool) (l : list A) (x : A) :
  Forall (fun y => f y = true) l -> f x = false -> filter f (l ++ [x]) = l.
Proof.
  intros Hl Hx. rewrite filter_app. simpl. rewrite Hx, app_nil_r.
  now apply filter_id_on.
Qed.

(** X9.  Adding an inventory item and then deleting it by its id gives back
    the stores one started from, provided no item of an active store
    already carried that id. *)
Theorem addInventoryItem_then_delete settings activeStoreId newId item prev :
  fresh_inventory_id activeStoreId newId prev ->
  deleteInventoryItem activeStoreId newId
    (addInventoryItem settings activeStoreId newId item prev) = prev.
Proof.
  intros H. unfold deleteInventoryItem, addInventoryItem.
  rewrite map_map. apply map_id_on.
  revert H. apply Forall_impl. intros s Hs.
  destruct (isActive activeStoreId s) eqn:Ea; [|now rewrite Ea].
  specialize (Hs eq_refl). unfold isActive in *; simpl; rewrite Ea.
  rewrite filter_app_fresh; [apply store_eta | |].
  - revert Hs. apply Forall_impl. intros i Hi.
    apply negb_true_iff, js_string_eqb_false. exact Hi.
  - simpl. now rewrite js_string_eqb_refl.
Qed.

Lemma addInventoryItem_then_delete_witness :
  deleteInventoryItem (Some (lit "s1")) (lit "i2")
    (addInventoryItem defaultSettings (Some (lit "s1")) (lit "i2")
                      negativeQuantityDraft [sampleStore])
  = [sampleStore].
Proof.
  apply addInventoryItem_then_delete.
  repeat constructor. discriminate.
Defined.

(** X10.  Adding an order and then deleting it by its id gives back the
    stores one started from, provided no order of an active store already
    carried that id. *)
Theorem addOrderItem_then_delete settings activeStoreId newId now item createdAt prev :
  fresh_order_id activeStoreId newId prev ->
  deleteOrderItem activeStoreId newId
    (addOrderItem settings activeStoreId newId now item createdAt prev) = prev.
Proof.
  intros H. unfold deleteOrderItem, addOrderItem.
  rewrite map_map. apply map_id_on.
  revert H. apply Forall_impl. intros s Hs.
  destruct (isActive activeStoreId s) eqn:Ea; [|now rewrite Ea].
  specialize (Hs eq_refl). unfold isActive in *; simpl; rewrite Ea.
  rewrite filter_app_fresh; [apply store_eta | |].
  - revert Hs. apply Forall_impl. intros o Ho.
    apply negb_true_iff, js_string_eqb_false. exact Ho.
  - simpl. now rewrite js_string_eqb_refl.
Qed.

Lemma addOrderItem_then_delete_witness :
  deleteOrderItem (Some (lit "s1")) (lit "o2")
    (addOrderItem defaultSettings (Some (lit "s1")) (lit "o2") (lit "2026-02-01")
                  sampleOrderDraft None [sampleStore])
  = [sampleStore].
Proof.
  apply addOrderItem_then_delete.
  repeat constructor. discriminate.
Defined.

(** ** Stores and the active store *)

Lemma find_filter_kept {A : Type} (p q : A -> bool) (l : list A) :
  (forall x, p x = true -> q x = true) -> find p (filter q l) = find p l.
Proof.
  intros H. induction l as [|x l IH]; simpl; [reflexivity|].
  destruct (q x) eqn:Eq; simpl.
  - now rewrite IH.
  - destruct (p x) eqn:Ep; [|exact IH].
    apply H in Ep. congruence.
Qed.

Lemma find_none_all_false {A : Type} (p : A -> bool) (l : list A) :
  (forall x, In x l -> p x = false) -> find p l = None.
Proof.
  intros H. induction l as [|x l IH]; simpl; [reflexivity|].
  rewrite (H x (or_introl eq_refl)). apply IH. intros y Hy. apply H. now right.
Qed.

Lemma find_map_commute {A : Type} (p : A -> bool) (f : A -> A) (l : list A) :
  (forall x, p (f x) = p x) -> find p (map f l) = option_map f (find p l).
Proof.
  intros H. induction l as [|x l IH]; simpl; [reflexivity|].
  rewrite H. destruct (p x); [reflexivity | exact IH].
Qed.

Lemma isActiveId_true (activeStoreId : option js_string) (storeId : js_string) :
  isActiveId activeStoreId storeId = true <-> activeStoreId = Some storeId.
Proof.
  destruct activeStoreId as [a|]; simpl.
  - rewrite js_string_eqb_true. split; congruence.
  - split; discriminate.
Qed.

(** X11.  Deleting a store removes exactly the stores with that id, after
    which that id resolves to no store.  When another id was active, the
    active id and the store it resolves to are unchanged.  When the deleted
    store was the active one, the first remaining store becomes active; and
    when none remains, the active id is left naming the deleted store and
    resolves to nothing. *)
Theorem deleteStore_spec (storeId : js_string) (stores : list Store.t)
    (activeStoreId : option js_string) :
  (forall s, In s (fst (deleteStore storeId (stores, activeStoreId))) <->
             In s stores /\ Store.id s <> storeId) /\
  activeStore (fst (deleteStore storeId (stores, activeStoreId))) (Some storeId) = None /\
  (activeStoreId <> Some storeId ->
   snd (deleteStore storeId (stores, activeStoreId)) = activeStoreId /\
   activeStore (fst (deleteStore storeId (stores, activeStoreId))) activeStoreId
   = activeStore stores activeStoreId) /\
  (activeStoreId = Some storeId ->
   forall s0 rest,
     fst (deleteStore storeId (stores, activeStoreId)) = s0 :: rest ->
     snd (deleteStore storeId (stores, activeStoreId)) = Some (Store.id s0) /\
     activeStore (s0 :: rest) (Some (Store.id s0)) = Some s0) /\
  (activeStoreId = Some storeId ->
   fst (deleteStore storeId (stores, activeStoreId)) = [] ->
   snd (deleteStore storeId (stores, activeStoreId)) = Some storeId /\
   activeStore [] (Some storeId) = None).
Proof.
  set (keep := fun s => negb (js_string_eqb (Store.id s) storeId)).
  assert (Hfst : fst (deleteStore storeId (stores, activeStoreId)) = filter keep stores).
  { unfold deleteStore. simpl. fold keep.
    destruct (filter keep stores); [reflexivity|].
    destruct (isActiveId activeStoreId storeId); reflexivity. }
  rewrite Hfst. split; [|split; [|split; [|split]]].
  - intros s. rewrite filter_In. unfold keep.
    now rewrite negb_true_iff, js_string_eqb_false.
  - apply find_none_all_false. intros s Hs. apply filter_In in Hs.
    destruct Hs as [_ Hs]. unfold keep in Hs. apply negb_true_iff in Hs. exact Hs.
  - intros Hne. split.
    + unfold deleteStore. simpl. fold keep.
      destruct (filter keep stores); [reflexivity|].
      destruct (isActiveId activeStoreId storeId) eqn:E; [|reflexivity].
      apply isActiveId_true in E. contradiction.
    + unfold activeStore. apply find_filter_kept. intros s Hs.
      unfold keep. apply negb_true_iff, js_string_eqb_false.
      destruct activeStoreId as [a|]; simpl in Hs; [|discriminate].
      apply js_string_eqb_true in Hs. congruence.
  - intros Ha s0 rest Hl. split.
    + unfold deleteStore. simpl. fold keep. rewrite Hl.
      apply isActiveId_true in Ha. now rewrite Ha.
    + unfold activeStore. simpl. now rewrite js_string_eqb_refl.
  - intros Ha Hl. split; [|reflexivity].
    unfold deleteStore. simpl. fold keep. rewrite Hl. exact Ha.
Qed.

Lemma deleteStore_spec_witness :
  deleteStore (lit "s1") ([sampleStore], Some (lit "s1")) = ([], Some (lit "s1")) /\
  snd (deleteStore (lit "s2") ([sampleStore], Some (lit "s1"))) = Some (lit "s1").
Proof.
  destruct (deleteStore_spec (lit "s1") [sampleStore] (Some (lit "s1")))
    as (_ & _ & _ & _ & Hlast).
  destruct (deleteStore_spec (lit "s2") [sampleStore] (Some (lit "s1")))
    as (_ & _ & Hother & _ & _).
  split.
  - apply injective_projections; simpl.
    + reflexivity.
    + apply Hlast; reflexivity.
  - apply Hother. discriminate.
Defined.

(** X12.  addStore returns the existing stores followed by exactly one new
    store with the generated id, the given name and no items or orders, and
    makes that id the active id.  The active id then resolves to the first
    store carrying it: the new store when the id is fresh, an older store
    when the generated id collides with one. *)
Theorem addStore_spec (newId name : js_string) (stores : list Store.t)
    (activeStoreId : option js_string) :
  addStore newId name (stores, activeStoreId)
  = (stores ++ [ {| Store.id := newId; Store.name := name;
                    Store.inventory := []; Store.orders := [] |} ],
     Some newId) /\
  activeStore (fst (addStore newId name (stores, activeStoreId)))
              (snd (addStore newId name (stores, activeStoreId)))
  = match activeStore stores (Some newId) with
    | Some s => Some s
    | None => Some {| Store.id := newId; Store.name := name;
                      Store.inventory := []; Store.orders := [] |}
    end /\
  (Forall (fun s => Store.id s <> newId) stores ->
   activeStore (fst (addStore newId name (stores, activeStoreId)))
               (snd (addStore newId name (stores, activeStoreId)))
   = Some {| Store.id := newId; Store.name := name;
             Store.inventory := []; Store.orders := [] |}).
Proof.
  assert (Hgen :
    activeStore (fst (addStore newId name (stores, activeStoreId)))
                (snd (addStore newId name (stores, activeStoreId)))
    = match activeStore stores (Some newId) with
      | Some s => Some s
      | None => Some {| Store.id := newId; Store.name := name;
                        Store.inventory := []; Store.orders := [] |}
      end).
  { unfold addStore, activeStore. simpl.
    induction stores as [|s l IH]; simpl.
    - now rewrite js_string_eqb_refl.
    - destruct (js_string_eqb (Store.id s) newId); [reflexivity | exact IH]. }
  split; [reflexivity|]. split; [exact Hgen|].
  intros Hfresh. rewrite Hgen.
  unfold activeStore. rewrite find_none_all_false; [reflexivity|].
  intros s Hs. simpl. apply js_string_eqb_false.
  rewrite Forall_forall in Hfresh. now apply Hfresh.
Qed.

Lemma addStore_spec_witness :
  activeStore (fst (addStore (lit "s2") (lit "Second") ([sampleStore], Some (lit "s1"))))
              (snd (addStore (lit "s2") (lit "Second") ([sampleStore], Some (lit "s1"))))
  = Some {| Store.id := lit "s2"; Store.name := lit "Second";
            Store.inventory := []; Store.orders := [] |}.
Proof.
  apply (proj2 (proj2 (addStore_spec (lit "s2") (lit "Second") [sampleStore]
                         (Some (lit "s1"))))).
  repeat constructor. discriminate.
Defined.

(** X13.  Renaming a store changes no id, inventory or order list, gives the
    new name to exactly the stores with the given id, and the active store
    after the renaming is the active store before it, renamed if it has
    that id. *)
Theorem updateStoreName_spec (storeId name : js_string) (prev : list Store.t)
    (activeStoreId : option js_string) :
  Forall2 (fun s s' =>
             Store.id s' = Store.id s /\
             Store.inventory s' = Store.inventory s /\
             Store.orders s' = Store.orders s /\
             Store.name s' = if js_string_eqb (Store.id s) storeId then name
                             else Store.name s)
          prev (updateStoreName storeId name prev) /\
  activeStore (updateStoreName storeId name prev) activeStoreId
  = option_map (fun s => if js_string_eqb (Store.id s) storeId
                         then {| Store.id := Store.id s; Store.name := name;
                                 Store.inventory := Store.inventory s;
                                 Store.orders := Store.orders s |}
                         else s)
               (activeStore prev activeStoreId).
Proof.
  unfold updateStoreName. split.
  - apply Forall2_map_graph. intros s.
    destruct (js_string_eqb (Store.id s) storeId); simpl; auto.
  - unfold activeStore. apply find_map_commute. intros s.
    destruct (js_string_eqb (Store.id s) storeId); reflexivity.
Qed.

(** X14.  After an item or an order is added, the active store is the
    store that was active before with the new record last in its list;
    when no store is active the lookup still finds none. *)
Theorem activeStore_after_add settings activeStoreId newId now prev :
  (forall item,
      activeStore (addInventoryItem settings activeStoreId newId item prev) activeStoreId
      = option_map
          (fun s => {| Store.id := Store.id s; Store.name := Store.name s;
                       Store.inventory :=
                         Store.inventory s ++ [newInventoryItem settings newId item];
                       Store.orders := Store.orders s |})
          (activeStore prev activeStoreId)) /\
  (forall item createdAt,
      activeStore (addOrderItem settings activeStoreId newId now item createdAt prev)
                  activeStoreId
      = option_map
          (fun s => {| Store.id := Store.id s; Store.name := Store.name s;
                       Store.inventory := Store.inventory s;
                       Store.orders :=
                         Store.orders s
                         ++ [newOrderItem settings newId now item createdAt] |})
          (activeStore prev activeStoreId)).
Proof.
  split; intros.
  - unfold activeStore, addInventoryItem.
    induction prev as [|s l IH]; simpl; [reflexivity|].
    destruct (isActive activeStoreId s) eqn:Ea.
    + unfold isActive in *. simpl. now rewrite Ea.
    + rewrite Ea. exact IH.
  - unfold activeStore, addOrderItem.
    induction prev as [|s l IH]; simpl; [reflexivity|].
    destruct (isActive activeStoreId s) eqn:Ea.
    + unfold isActive in *. simpl. now rewrite Ea.
    + rewrite Ea. exact IH.
Qed.

(** ** The sweep and the other operations *)

(** X15.  A sweep under new settings makes an earlier sweep under other
    settings irrelevant: sweeping with s1 and then with s2 gives what
    sweeping with s2 alone gives. *)
Theorem recalculateAllPrices_last_wins (s1 s2 : Settings.t) (prev : list Store.t) :
  recalculateAllPrices s2 (recalculateAllPrices s1 prev) = recalculateAllPrices s2 prev.
Proof.
  unfold recalculateAllPrices. rewrite map_map. apply map_ext. intros store. simpl.
  rewrite !map_map. reflexivity.
Qed.

Lemma filter_map_commute {A : Type} (p : A -> bool) (f : A -> A) (l : list A) :
  (forall x, p (f x) = p x) -> filter p (map f l) = map f (filter p l).
Proof.
  intros H. induction l as [|x l IH]; simpl; [reflexivity|].
  rewrite H. destruct (p x); simpl; now rewrite IH.
Qed.

(** X16.  Under the same settings the sweep commutes with adding an item or
    an order, and under any settings with deleting one: sweeping after the
    operation gives what the operation gives after sweeping. *)
Theorem recalculateAllPrices_commutes settings activeStoreId prev :
  (forall newId item,
      recalculateAllPrices settings (addInventoryItem settings activeStoreId newId item prev)
      = addInventoryItem settings activeStoreId newId item
          (recalculateAllPrices settings prev)) /\
  (forall newId now item createdAt,
      recalculateAllPrices settings
        (addOrderItem settings activeStoreId newId now item createdAt prev)
      = addOrderItem settings activeStoreId newId now item createdAt
          (recalculateAllPrices settings prev)) /\
  (forall itemId,
      recalculateAllPrices settings (deleteInventoryItem activeStoreId itemId prev)
      = deleteInventoryItem activeStoreId itemId (recalculateAllPrices settings prev)) /\
  (forall itemId,
      recalculateAllPrices settings (deleteOrderItem activeStoreId itemId prev)
      = deleteOrderItem activeStoreId itemId (recalculateAllPrices settings prev)).
Proof.
  unfold recalculateAllPrices, addInventoryItem, addOrderItem,
         deleteInventoryItem, deleteOrderItem.
  repeat split; intros; rewrite !map_map; apply map_ext; intros s;
    destruct (isActive activeStoreId s) eqn:Ea;
    unfold isActive in *; simpl; rewrite Ea; try reflexivity.
  - now rewrite map_app.
  - now rewrite map_app.
  - f_equal. symmetry. now apply filter_map_commute.
  - f_equal. symmetry. now apply filter_map_commute.
Qed.

(** * Further properties of the formulas and the forms *)



(** X20.  In the add-inventory dialog the suggested price shown for a
    positive cost is the price stored with the created item; for a cost
    that is not positive the dialog shows 0 and the submission is
    rejected. *)
Theorem calculatedSellingPrice_is_stored (settings : Settings.t)
    (activeStoreId : option js_string) (newId : js_string)
    (d : AddInventoryDialog.state) (stores : list Store.t) :
  (0 < InventoryDraft.costPriceCNY (AddInventoryDialog.newItem d) ->
   InventoryItem.sellingPriceJPY
     (newInventoryItem settings newId (AddInventoryDialog.newItem d))
   = calculatedSellingPrice settings (AddInventoryDialog.newItem d)) /\
  (InventoryDraft.costPriceCNY (AddInventoryDialog.newItem d) <= 0 ->
   calculatedSellingPrice settings (AddInventoryDialog.newItem d) = 0 /\
   submitInventoryItem settings activeStoreId newId d stores = (stores, d)).
Proof.
  unfold calculatedSellingPrice. split.
  - intros Hc. apply js_gt_true in Hc. now rewrite Hc.
  - intros Hc. split.
    + destruct (js_gt _ 0) eqn:E; [|reflexivity].
      apply js_gt_true in E. exfalso. now apply (Qlt_not_le _ _ E).
    + apply handleSubmit_rejects. now right.
Qed.

Lemma calculatedSellingPrice_is_stored_witness :
  InventoryItem.sellingPriceJPY
    (newInventoryItem defaultSettings (lit "i2") negativeQuantityDraft)
  = calculatedSellingPrice defaultSettings negativeQuantityDraft.
Proof.
  apply (proj1 (calculatedSellingPrice_is_stored defaultSettings None (lit "i2")
                  {| AddInventoryDialog.newItem := negativeQuantityDraft;
                     AddInventoryDialog.open := true |} [])).
  reflexivity.
Defined.

(** ** The add-order dialog *)

Lemma js_or_nonempty (a b : js_string) : a <> [] -> js_or a b = a.
Proof. destruct a; [contradiction | reflexivity]. Qed.

Lemma js_or_absorb (a b : js_string) : js_or (js_or a b) b = js_or a b.
Proof. destruct a; simpl; [destruct b|]; reflexivity. Qed.

Lemma orderDate_nonempty (midMonth : js_string) (d : AddOrderDialog.draft) :
  midMonth <> [] -> AddOrderDialog.orderDate midMonth d <> [].
Proof.
  intros H. unfold AddOrderDialog.orderDate.
  destruct (AddOrderDialog.createdAt d) eqn:E; simpl; [exact H | discriminate].
Qed.

(** X21.  The add-order dialog rejects a draft whose name is blank or whose
    cost is not positive, leaving stores and dialog as they were.  An
    accepted draft is stored through addOrderItem with the picked order date,
    or the 15th of the selected month when none was picked, whatever the
    clock says; its completion date is the picked one or else the order
    date; its converted cost is the one the dialog previewed, and so is its
    profit when the payment is positive. *)
Theorem submitOrderItem_spec (settings : Settings.t) (activeStoreId : option js_string)
    (newId now midMonth : js_string) (st : AddOrderDialog.state)
    (stores : list Store.t) :
  midMonth <> [] ->
  (trim (AddOrderDialog.productName (AddOrderDialog.newItem st)) = [] \/
   AddOrderDialog.costPriceCNY (AddOrderDialog.newItem st) <= 0 ->
   submitOrderItem settings activeStoreId newId now midMonth st stores = (stores, st)) /\
  (trim (AddOrderDialog.productName (AddOrderDialog.newItem st)) <> [] ->
   0 < AddOrderDialog.costPriceCNY (AddOrderDialog.newItem st) ->
   exists o : OrderItem.t,
     fst (submitOrderItem settings activeStoreId newId now midMonth st stores)
     = map (fun s =>
              if isActive activeStoreId s
              then {| Store.id := Store.id s; Store.name := Store.name s;
                      Store.inventory := Store.inventory s;
                      Store.orders := Store.orders s ++ [o] |}
              else s) stores /\
     OrderItem.id o = newId /\
     OrderItem.createdAt o
     = (if truthy (AddOrderDialog.createdAt (AddOrderDialog.newItem st))
        then AddOrderDialog.createdAt (AddOrderDialog.newItem st) else midMonth) /\
     OrderItem.completedAt o
     = Some (if truthy (AddOrderDialog.completedAt (AddOrderDialog.newItem st))
             then AddOrderDialog.completedAt (AddOrderDialog.newItem st)
             else OrderItem.createdAt o) /\
     OrderItem.convertedWithShipping o
     = AddOrderDialog.calculatedCost settings (AddOrderDialog.newItem st) /\
     (0 < AddOrderDialog.actualPayment (AddOrderDialog.newItem st) ->
      OrderItem.profit o
      = AddOrderDialog.calculatedProfit settings (AddOrderDialog.newItem st))).
Proof.
  intros Hmid. unfold submitOrderItem, AddOrderDialog.handleSubmit.
  set (d := AddOrderDialog.newItem st). split.
  - intros [H | H].
    + rewrite H. reflexivity.
    + destruct (js_gt _ 0) eqn:E.
      * apply js_gt_true in E. exfalso. now apply (Qlt_not_le _ _ E).
      * now rewrite andb_false_r.
  - intros Hn Hc. apply js_gt_true in Hc. rewrite Hc.
    destruct (truthy (trim (AddOrderDialog.productName d))) eqn:E;
      [|apply truthy_false in E; contradiction].
    simpl.
    exists (newOrderItem settings newId now (AddOrderDialog.submitted midMonth d)
                         (Some (AddOrderDialog.orderDate midMonth d))).
    pose proof (orderDate_nonempty midMonth d Hmid) as Hod.
    assert (Hdate : OrderItem.createdAt
                      (newOrderItem settings newId now
                         (AddOrderDialog.submitted midMonth d)
                         (Some (AddOrderDialog.orderDate midMonth d)))
                    = AddOrderDialog.orderDate midMonth d).
    { simpl. rewrite (js_or_nonempty _ _ Hod). now apply js_or_nonempty. }
    split; [reflexivity|]. split; [reflexivity|]. split; [exact Hdate|].
    split; [|split].
    + rewrite Hdate. simpl.
      rewrite (js_or_nonempty (AddOrderDialog.orderDate midMonth d) _ Hod).
      rewrite (js_or_nonempty (AddOrderDialog.orderDate midMonth d) _ Hod).
      now rewrite js_or_absorb.
    + unfold AddOrderDialog.calculatedCost. rewrite Hc. reflexivity.
    + intros Hp. apply js_gt_true in Hp.
      unfold AddOrderDialog.calculatedProfit, AddOrderDialog.calculatedCost.
      rewrite Hp, Hc. reflexivity.
Qed.

Lemma submitOrderItem_spec_witness :
  submitOrderItem defaultSettings (Some (lit "s1")) (lit "o2") (lit "2026-03-03")
    (lit "2026-02-15")
    {| AddOrderDialog.newItem := AddOrderDialog.emptyItem; AddOrderDialog.open := true |}
    [sampleStore]
  = ([sampleStore],
     {| AddOrderDialog.newItem := AddOrderDialog.emptyItem;
        AddOrderDialog.open := true |}).
Proof.
  apply (submitOrderItem_spec defaultSettings (Some (lit "s1")) (lit "o2")
           (lit "2026-03-03") (lit "2026-02-15")).
  - discriminate.
  - left. reflexivity.
Defined.

(** ** The order table *)




(** X23.  For a month between 1 and 12 the previous-month and next-month
    buttons keep the month between 1 and 12, move the count of months
    year * 12 + month by exactly one, and undo each other. *)
Theorem month_navigation (y m : Z) :
  (1 <= m <= 12)%Z ->
  (1 <= snd (handleNextMonth (y, m)) <= 12)%Z /\
  (1 <= snd (handlePrevMonth (y, m)) <= 12)%Z /\
  (fst (handleNextMonth (y, m)) * 12 + snd (handleNextMonth (y, m)) = y * 12 + m + 1)%Z /\
  (fst (handlePrevMonth (y, m)) * 12 + snd (handlePrevMonth (y, m)) = y * 12 + m - 1)%Z /\
  handlePrevMonth (handleNextMonth (y, m)) = (y, m) /\
  handleNextMonth (handlePrevMonth (y, m)) = (y, m).
Proof.
  intros Hm. unfold handleNextMonth, handlePrevMonth. simpl.
  destruct (Z.eqb_spec m 12) as [E12 | N12];
    destruct (Z.eqb_spec m 1) as [E1 | N1]; simpl; try lia.
  - subst m. repeat split; try lia. f_equal; lia.
  - subst m. repeat split; try lia. f_equal; lia.
  - destruct (Z.eqb_spec (m + 1) 1); [lia|].
    destruct (Z.eqb_spec (m - 1) 12); [lia|].
    repeat split; try lia; f_equal; lia.
Qed.

Lemma month_navigation_witness :
  handleNextMonth (2026, 12)%Z = (2027, 1)%Z /\
  handlePrevMonth (handleNextMonth (2026, 12)%Z) = (2026, 12)%Z.
Proof.
  destruct (month_navigation 2026 12) as (_ & _ & _ & _ & H & _); [lia|].
  split; [reflexivity | exact H].
Defined.

(** ** The CSV cell *)

Lemma undoubleQuotes_other (c : N) (r : js_string) :
  (c =? 34)%N = false -> undoubleQuotes (c :: r) = c :: undoubleQuotes r.
Proof.
  intros H. destruct r as [|c' r']; simpl; [reflexivity|].
  now rewrite H.
Qed.

Lemma undoubleQuotes_doubleQuotes (s : js_string) :
  undoubleQuotes (doubleQuotes s) = s.
Proof.
  induction s as [|c s IH]; [reflexivity|].
  cbn [doubleQuotes]. destruct (c =? 34)%N eqn:E.
  - apply N.eqb_eq in E. subst c. cbn. now rewrite IH.
  - rewrite (undoubleQuotes_other _ _ E). now rewrite IH.
Qed.

Lemma csvField_plain_has_no_quote (s : js_string) :
  includes 44 s || includes 34 s || includes 10 s = false -> includes 34 s = false.
Proof.
  intros H. apply orb_false_iff in H. destruct H as [H _].
  apply orb_false_iff in H. tauto.
Qed.

(** X24.  A value without comma, quotation mark or line feed is written to
    the CSV as it is; any other value is written between quotation marks
    with its own quotation marks doubled; and two different values never
    give the same cell. *)
Theorem csvField_spec :
  (forall s, includes 44 s = false -> includes 34 s = false -> includes 10 s = false ->
             csvField s = s) /\
  (forall s, includes 44 s = true \/ includes 34 s = true \/ includes 10 s = true ->
             csvField s = 34%N :: doubleQuotes s ++ [34%N]) /\
  (forall a b, csvField a = csvField b -> a = b).
Proof.
  split; [|split].
  - intros s H1 H2 H3. unfold csvField. now rewrite H1, H2, H3.
  - intros s H. unfold csvField.
    destruct (includes 44 s), (includes 34 s), (includes 10 s); simpl; try reflexivity.
    destruct H as [H | [H | H]]; discriminate.
  - intros a b. unfold csvField.
    destruct (includes 44 a || includes 34 a || includes 10 a) eqn:Ea;
      destruct (includes 44 b || includes 34 b || includes 10 b) eqn:Eb.
    + intros H. injection H as H. apply app_inj_tail in H. destruct H as [H _].
      rewrite <- (undoubleQuotes_doubleQuotes a), <- (undoubleQuotes_doubleQuotes b).
      now rewrite H.
    + intros H. apply csvField_plain_has_no_quote in Eb.
      rewrite <- H in Eb. simpl in Eb. discriminate.
    + intros H. apply csvField_plain_has_no_quote in Ea.
      rewrite H in Ea. simpl in Ea. discriminate.
    + auto.
Qed.

Lemma csvField_spec_witness :
  csvField (lit "red, large") = 34%N :: lit "red, large" ++ [34%N] /\
  csvField (lit "red") = lit "red".
Proof.
  destruct csvField_spec as (Hplain & Hquoted & _).
  split.
  - apply Hquoted. left. reflexivity.
  - apply Hplain; reflexivity.
Defined.
